(** * A hash-chained transaction ledger (streamlit_app.py)

    Shallow embedding of the ledger core of [streamlit_app.py]:
    [Transaction], [Block], [BlockchainLedger] and [process_transactions],
    together with the Python built-ins they rely on ([str] of ints and
    floats, [bool], [int], [float], [hashlib.sha256]).

    Python [str] values are modelled by their UTF-8 encoding (a Rocq
    [string] is a sequence of bytes); concatenation commutes with encoding,
    so [block_string.encode()] is the identity on this representation. *)

From Stdlib Require Import ZArith String Ascii List Lia DecimalString SpecFloat.
From stdpp Require Import list strings gmap.
Import ListNotations.
Local Open Scope string_scope.
Local Open Scope list_scope.
Local Open Scope Z_scope.

(** ** Text of an integer: [str(n)]

    The decimal digits of [n], with a minus sign when negative. The
    interpreter refuses to convert an [int] of more than 4300 digits unless
    that limit is lifted; the integers the ledger converts are block
    indices, far below it. *)

Definition str_int (z : Z) : string := NilZero.string_of_int (Z.to_int z).

(** ** hashlib.sha256 (FIPS 180-4), on bytes held as [Z] *)

Module Sha256.

Definition mask32 (x : Z) : Z := Z.land x (Z.ones 32).
Definition add32 (x y : Z) : Z := mask32 (x + y).
Definition rotr (n x : Z) : Z := Z.lor (Z.shiftr x n) (mask32 (Z.shiftl x (32 - n))).

(* The round constants are the first 32 fractional bits of the cube roots
   of the first 64 primes, the initial state those of the square roots of
   the first 8 primes; both tables are computed here rather than typed in. *)
Definition is_prime (n : nat) : bool :=
  forallb (fun d => negb (Nat.eqb (n mod d) 0)) (seq 2 (n - 2)).

Definition primes64 : list Z :=
  map Z.of_nat (filter (fun n => is_prime n) (seq 2 310)).

Fixpoint root_bits (k : nat) (bit : nat) (n r : Z) : Z :=
  match bit with
  | O => r
  | S b => let r' := Z.lor r (Z.shiftl 1 (Z.of_nat b)) in
           root_bits k b n (if r' ^ Z.of_nat k <=? n then r' else r)
  end.

Definition frac_root (k : nat) (p : Z) : Z :=
  mask32 (root_bits k 36 (Z.shiftl p (32 * Z.of_nat k)) 0).

Definition K : list Z := Eval vm_compute in map (frac_root 3) primes64.
Definition H0 : list Z := Eval vm_compute in map (frac_root 2) (firstn 8 primes64).

Definition Ch (x y z : Z) := Z.lxor (Z.land x y) (Z.land (mask32 (Z.lnot x)) z).
Definition Maj (x y z : Z) := Z.lxor (Z.lxor (Z.land x y) (Z.land x z)) (Z.land y z).
Definition bsig0 x := Z.lxor (Z.lxor (rotr 2 x) (rotr 13 x)) (rotr 22 x).
Definition bsig1 x := Z.lxor (Z.lxor (rotr 6 x) (rotr 11 x)) (rotr 25 x).
Definition ssig0 x := Z.lxor (Z.lxor (rotr 7 x) (rotr 18 x)) (Z.shiftr x 3).
Definition ssig1 x := Z.lxor (Z.lxor (rotr 17 x) (rotr 19 x)) (Z.shiftr x 10).

(* big-endian bytes of the low 8*n bits of x *)
Fixpoint be_bytes (n : nat) (x : Z) : list Z :=
  match n with
  | O => []
  | S m => Z.land (Z.shiftr x (8 * Z.of_nat m)) 255 :: be_bytes m x
  end.

Definition pad (msg : list Z) : list Z :=
  let len := Z.of_nat (length msg) in
  let zeros := Z.to_nat ((55 - len) mod 64) in
  msg ++ [128] ++ repeat 0 zeros ++ be_bytes 8 (8 * len).

Fixpoint be_words (fuel : nat) (bs : list Z) : list Z :=
  match fuel, bs with
  | S f, b0 :: b1 :: b2 :: b3 :: rest =>
      (Z.shiftl b0 24 + Z.shiftl b1 16 + Z.shiftl b2 8 + b3) :: be_words f rest
  | _, _ => []
  end.

(* message schedule, newest word first *)
Fixpoint schedule (n : nat) (rw : list Z) : list Z :=
  match n with
  | O => rw
  | S m =>
      let w := add32 (add32 (ssig1 (nth 1 rw 0)) (nth 6 rw 0))
                     (add32 (ssig0 (nth 14 rw 0)) (nth 15 rw 0)) in
      schedule m (w :: rw)
  end.

Definition regs := (Z * Z * Z * Z * Z * Z * Z * Z)%type.

Definition round (s : regs) (kw : Z * Z) : regs :=
  let '(a, b, c, d, e, f, g, h) := s in
  let t1 := add32 (add32 (add32 h (bsig1 e)) (add32 (Ch e f g) (fst kw))) (snd kw) in
  let t2 := add32 (bsig0 a) (Maj a b c) in
  (add32 t1 t2, a, b, c, add32 d t1, e, f, g).

Definition compress (s : regs) (blk : list Z) : regs :=
  let w := rev (schedule 48 (rev blk)) in
  let '(a, b, c, d, e, f, g, h) := fold_left round (combine K w) s in
  let '(a0, b0, c0, d0, e0, f0, g0, h0) := s in
  (add32 a0 a, add32 b0 b, add32 c0 c, add32 d0 d,
   add32 e0 e, add32 f0 f, add32 g0 g, add32 h0 h).

Fixpoint blocks (fuel : nat) (ws : list Z) (s : regs) : regs :=
  match fuel, ws with
  | S f, _ :: _ => blocks f (skipn 16 ws) (compress s (firstn 16 ws))
  | _, _ => s
  end.

Definition init : regs :=
  match H0 with
  | [a; b; c; d; e; f; g; h] => (a, b, c, d, e, f, g, h)
  | _ => (0, 0, 0, 0, 0, 0, 0, 0)
  end.

Definition digest (msg : list Z) : list Z :=
  let bs := pad msg in
  let ws := be_words (length bs) bs in
  let '(a, b, c, d, e, f, g, h) := blocks (length ws) ws init in
  flat_map (be_bytes 4) [a; b; c; d; e; f; g; h].

Definition hex_digit (n : Z) : ascii :=
  ascii_of_N (Z.to_N (if n <? 10 then 48 + n else 87 + n)).

Definition hex (bs : list Z) : string :=
  string_of_list_ascii
    (flat_map (fun b => [hex_digit (Z.shiftr b 4); hex_digit (Z.land b 15)]) bs).

Definition bytes_of_string (s : string) : list Z :=
  map (fun c => Z.of_N (N_of_ascii c)) (list_ascii_of_string s).

End Sha256.

(** [hashlib.sha256(data).hexdigest()] *)
Definition sha256_hexdigest (s : string) : string :=
  Sha256.hex (Sha256.digest (Sha256.bytes_of_string s)).

Arguments sha256_hexdigest : simpl never.

(** ** Python floats: IEEE 754 binary64, as [spec_float] *)

Definition float := spec_float.

(** [float(n)] for an int [n]: the nearest double, ties to even. *)
Definition float_of_Z (z : Z) : float := binary_normalize 53 1024 z 0 false.

(** The double nearest to [(-1)^s * n * 10^k], ties to even. *)
Definition float_of_decimal (s : bool) (n k : Z) : float :=
  match n with
  | Zpos m =>
      if 0 <=? k
      then binary_normalize 53 1024 (if s then - (n * 10 ^ k) else n * 10 ^ k) 0 s
      else SFdiv 53 1024 (S754_finite s m 0) (S754_finite false (Z.to_pos (10 ^ (- k))) 0)
  | _ => S754_zero s
  end.

(** [repr(x)] / [str(x)] of a float: the shortest decimal digits that read
    back as [x], laid out as CPython's [float_repr] does. *)
Module Repr.

(* x * 2^(e-2) = scaled x e * 10^(- scale e), with scaled x e an integer *)
Definition scale (e : Z) : Z := Z.max 0 (2 - e).
Definition scaled (x e : Z) : Z :=
  if 2 <=? e then x * 2 ^ (e - 2) else x * 5 ^ (2 - e).

Definition ndigits (x : Z) : Z := Z.of_nat (String.length (str_int x)).

Fixpoint strip_zeros (fuel : nat) (d k : Z) : Z * Z :=
  match fuel with
  | S f => if (0 <? d) && (d mod 10 =? 0) then strip_zeros f (d / 10) (k + 1) else (d, k)
  | O => (d, k)
  end.

(* Try p = 1, 2, ... significant digits: the two p-digit neighbours of X
   are d*q and (d+1)*q; the first p at which one of them falls in the
   rounding interval (LO, HI) of the float gives the digits. *)
Fixpoint shortest (fuel : nat) (p : Z) (incl : bool) (sc X LO HI nd : Z) : Z * Z :=
  let q := 10 ^ (nd - p) in
  let d := X / q in
  let inside c :=
    if incl then (LO <=? c) && (c <=? HI) else (LO <? c) && (c <? HI) in
  let lo_ok := inside (d * q) in
  let hi_ok := inside ((d + 1) * q) in
  let k := nd - p - sc in
  let pick_hi :=
    match Z.compare (X - d * q) ((d + 1) * q - X) with
    | Lt => false | Gt => true | Eq => Z.odd d
    end in
  match fuel with
  | O => (d, k)
  | S f =>
      if lo_ok && hi_ok then (if pick_hi then (d + 1, k) else (d, k))
      else if lo_ok then (d, k)
      else if hi_ok then (d + 1, k)
      else shortest f (p + 1) incl sc X LO HI nd
  end.

(* digits d and exponent k of m * 2^e: the float prints as d * 10^k *)
Definition digits (m : positive) (e : Z) : Z * Z :=
  let x := 4 * Zpos m in
  let below := if (Zpos m =? 2 ^ 52) && (-1074 <? e) then 1 else 2 in
  let X := scaled x e in
  let '(d, k) :=
    shortest 17 1 (Z.even (Zpos m)) (scale e) X
             (scaled (x - below) e) (scaled (x + 2) e) (ndigits X) in
  strip_zeros 400 d k.

Definition zeros (n : Z) : string :=
  string_of_list_ascii (repeat "0"%char (Z.to_nat n)).

Definition exponent (x : Z) : string :=
  let a := str_int (Z.abs x) in
  (if x <? 0 then "-" else "+") +:+ (if Z.abs x <? 10 then "0" +:+ a else a).

Definition format (d k : Z) : string :=
  let ds := str_int d in
  let n := Z.of_nat (String.length ds) in
  let decpt := n + k in
  if (decpt <=? -4) || (16 <? decpt) then
    String.substring 0 1 ds
      +:+ (if 1 <? n then "." +:+ String.substring 1 (Z.to_nat (n - 1)) ds else "")
      +:+ "e" +:+ exponent (decpt - 1)
  else if decpt <=? 0 then "0." +:+ zeros (- decpt) +:+ ds
  else if decpt <? n then
    String.substring 0 (Z.to_nat decpt) ds +:+ "."
      +:+ String.substring (Z.to_nat decpt) (Z.to_nat (n - decpt)) ds
  else ds +:+ zeros (decpt - n) +:+ ".0".

End Repr.

Definition float_repr (x : float) : string :=
  match x with
  | S754_zero s => if s then "-0.0" else "0.0"
  | S754_infinity s => if s then "-inf" else "inf"
  | S754_nan => "nan"
  | S754_finite s m e =>
      let '(d, k) := Repr.digits m e in
      (if s then "-" else "") +:+ Repr.format d k
  end.

Arguments float_repr : simpl never.

(** ** Reading numbers from ASCII text

    [float(s)] and [int(s)] on a [str] strip white space, accept one sign,
    allow single underscores between digits, and reject everything else.
    The functions below are those conversions on text made of ASCII
    characters only, where the white space stripped is the space and the
    characters 9 to 13. They do not cover what the interpreter accepts
    beyond that (decimal digits and white space outside ASCII) nor its
    configurable limit on the number of digits of an [int]. The ledger
    takes the two conversions from its [Runtime], so its theorems do not
    depend on how text is read; these functions serve for the sample runs,
    on plain numerals. *)

Module Text.

Definition code (c : ascii) : Z := Z.of_N (N_of_ascii c).
Definition is_digit (c : ascii) : bool := (48 <=? code c) && (code c <=? 57).
Definition is_space (c : ascii) : bool :=
  ((9 <=? code c) && (code c <=? 13)) || (code c =? 32).
Definition lower (c : ascii) : ascii :=
  if (65 <=? code c) && (code c <=? 90) then ascii_of_N (N_of_ascii c + 32) else c.

Fixpoint lstrip (cs : list ascii) : list ascii :=
  match cs with
  | c :: r => if is_space c then lstrip r else cs
  | [] => []
  end.
Definition strip (cs : list ascii) : list ascii := rev (lstrip (rev (lstrip cs))).

(* an underscore must stand between two digits; it is then dropped *)
Fixpoint no_underscores (after_digit : bool) (cs : list ascii) : option (list ascii) :=
  match cs with
  | [] => Some []
  | c :: r =>
      if code c =? 95 then
        if after_digit && match r with d :: _ => is_digit d | [] => false end
        then no_underscores false r else None
      else option_map (cons c) (no_underscores (is_digit c) r)
  end.

Definition number (ds : list ascii) : Z :=
  fold_left (fun a c => 10 * a + (code c - 48)) ds 0.

Definition all_digits (cs : list ascii) : bool :=
  match cs with [] => false | _ => forallb is_digit cs end.

Fixpoint span_digits (cs : list ascii) : list ascii * list ascii :=
  match cs with
  | c :: r => if is_digit c then let '(a, b) := span_digits r in (c :: a, b) else ([], cs)
  | [] => ([], [])
  end.

Definition signed (cs : list ascii) : bool * list ascii :=
  match cs with
  | c :: r => if code c =? 45 then (true, r) else if code c =? 43 then (false, r) else (false, cs)
  | [] => (false, [])
  end.

Definition parse_int (s : string) : option Z :=
  let '(neg, body) := signed (strip (list_ascii_of_string s)) in
  match no_underscores false body with
  | Some ds => if all_digits ds then Some (if neg then - number ds else number ds) else None
  | None => None
  end.

(** What a decimal literal denotes: [(-1)^s * n * 10^k], an infinity or nan. *)
Inductive decimal := Dec_num (s : bool) (n k : Z) | Dec_inf (s : bool) | Dec_nan.

Definition parse_decimal (s : string) : option decimal :=
  let '(neg, body0) := signed (strip (list_ascii_of_string s)) in
  match no_underscores false body0 with
  | None => None
  | Some body =>
      let word := string_of_list_ascii (map lower body) in
      if String.eqb word "inf" || String.eqb word "infinity" then Some (Dec_inf neg)
      else if String.eqb word "nan" then Some Dec_nan
      else
        let '(ip, r1) := span_digits body in
        let '(fp, r2) :=
          match r1 with
          | c :: r => if code c =? 46 then span_digits r else ([], r1)
          | [] => ([], r1)
          end in
        let n := number (ip ++ fp) in
        let k := - Z.of_nat (length fp) in
        match ip ++ fp, r2 with
        | [], _ => None
        | _, [] => Some (Dec_num neg n k)
        | _, c :: r3 =>
            let '(eneg, ds) := signed r3 in
            if (code (lower c) =? 101) && all_digits ds
            then Some (Dec_num neg n (k + (if eneg then - number ds else number ds)))
            else None
        end
  end.

Definition parse_float (s : string) : option float :=
  match parse_decimal s with
  | Some (Dec_num s n k) => Some (float_of_decimal s n k)
  | Some (Dec_inf s) => Some (S754_infinity s)
  | Some Dec_nan => Some S754_nan
  | None => None
  end.

End Text.

(** ** Python values and the built-in conversions used by the source *)

Inductive pyval :=
  | PyNone
  | PyBool (b : bool)
  | PyInt (n : Z)
  | PyFloat (x : float)
  | PyStr (s : string).

Inductive exn := KeyError (key : string) | IndexError | ValueError | TypeError | OverflowError.

Inductive result (A : Type) := Ok (a : A) | Raise (e : exn).
Arguments Ok {A} a.
Arguments Raise {A} e.

Definition bind {A B} (m : result A) (f : A -> result B) : result B :=
  match m with Ok a => f a | Raise e => Raise e end.

Notation "'let*' x ':=' m 'in' k" := (bind m (fun x => k))
  (at level 10, x pattern, m at level 100, k at level 200).

(** What the interpreter and the operating system supply: the readings of
    [time.time()] in call order, and the reading of numbers from text. *)
Record Runtime := {
  time_time : nat -> float;
  str_to_float : string -> option float;
  str_to_int : string -> option Z
}.

(** [str(v)] *)
Definition py_str (v : pyval) : string :=
  match v with
  | PyNone => "None"
  | PyBool b => if b then "True" else "False"
  | PyInt n => str_int n
  | PyFloat x => float_repr x
  | PyStr s => s
  end.

(** [bool(v)]: truthiness *)
Definition py_bool (v : pyval) : bool :=
  match v with
  | PyNone => false
  | PyBool b => b
  | PyInt n => negb (n =? 0)
  | PyFloat (S754_zero _) => false
  | PyFloat _ => true
  | PyStr s => negb (String.eqb s "")
  end.

(** [int(v)] *)
Definition py_int (rt : Runtime) (v : pyval) : result Z :=
  match v with
  | PyNone => Raise TypeError
  | PyBool b => Ok (if b then 1 else 0)
  | PyInt n => Ok n
  | PyFloat S754_nan => Raise ValueError
  | PyFloat (S754_infinity _) => Raise OverflowError
  | PyFloat (S754_zero _) => Ok 0
  | PyFloat (S754_finite s m e) =>
      let a := if 0 <=? e then Zpos m * 2 ^ e else Z.shiftr (Zpos m) (- e) in
      Ok (if s then - a else a)
  | PyStr s => match str_to_int rt s with Some n => Ok n | None => Raise ValueError end
  end.

(** [float(v)] *)
Definition py_float (rt : Runtime) (v : pyval) : result float :=
  match v with
  | PyNone => Raise TypeError
  | PyBool b => Ok (float_of_Z (if b then 1 else 0))
  | PyInt n =>
      match float_of_Z n with
      | S754_infinity _ => Raise OverflowError
      | x => Ok x
      end
  | PyFloat x => Ok x
  | PyStr s => match str_to_float rt s with Some x => Ok x | None => Raise ValueError end
  end.

(** ** Transaction *)

Record Transaction := {
  sender : pyval;
  receiver : pyval;
  amount : pyval;
  currency : pyval;
  is_laundering : bool;
  payment_type : pyval
}.

(** [Transaction.__init__]: every argument is stored as given, except the
    flag, which goes through [bool]. *)
Definition Transaction_init
    (sender receiver amount currency is_laundering payment_type : pyval) : Transaction :=
  {| sender := sender;
     receiver := receiver;
     amount := amount;
     currency := currency;
     is_laundering := py_bool is_laundering;
     payment_type := payment_type |}.

(** [Transaction.__str__] *)
Definition Transaction_str (txn : Transaction) : string :=
  let status := if is_laundering txn then "🚨 Suspicious" else "✅ Normal" in
  py_str (sender txn) +:+ " → " +:+ py_str (receiver txn) +:+ " | "
    +:+ py_str (amount txn) +:+ " " +:+ py_str (currency txn) +:+ " | "
    +:+ py_str (payment_type txn) +:+ " | " +:+ status.

(** Assignment to one attribute of a transaction. *)
Inductive field_update :=
  | Set_sender (v : pyval)
  | Set_receiver (v : pyval)
  | Set_amount (v : pyval)
  | Set_currency (v : pyval)
  | Set_is_laundering (b : bool)
  | Set_payment_type (v : pyval).

Definition set_field (u : field_update) (t : Transaction) : Transaction :=
  match u with
  | Set_sender v =>
      {| sender := v; receiver := receiver t; amount := amount t; currency := currency t;
         is_laundering := is_laundering t; payment_type := payment_type t |}
  | Set_receiver v =>
      {| sender := sender t; receiver := v; amount := amount t; currency := currency t;
         is_laundering := is_laundering t; payment_type := payment_type t |}
  | Set_amount v =>
      {| sender := sender t; receiver := receiver t; amount := v; currency := currency t;
         is_laundering := is_laundering t; payment_type := payment_type t |}
  | Set_currency v =>
      {| sender := sender t; receiver := receiver t; amount := amount t; currency := v;
         is_laundering := is_laundering t; payment_type := payment_type t |}
  | Set_is_laundering b =>
      {| sender := sender t; receiver := receiver t; amount := amount t; currency := currency t;
         is_laundering := b; payment_type := payment_type t |}
  | Set_payment_type v =>
      {| sender := sender t; receiver := receiver t; amount := amount t; currency := currency t;
         is_laundering := is_laundering t; payment_type := v |}
  end.

(** ** Block *)

Record Block := {
  index : Z;
  timestamp : float;
  transactions : list Transaction;
  previous_hash : string;
  hash : string
}.

(** The text that [Block.calculate_hash] feeds to SHA-256. *)
Definition block_string (index : Z) (timestamp : float)
    (transactions : list Transaction) (previous_hash : string) : string :=
  let txn_str := String.concat "" (map Transaction_str transactions) in
  str_int index +:+ float_repr timestamp +:+ txn_str +:+ previous_hash.

(** [Block.calculate_hash] *)
Definition calculate_hash (b : Block) : string :=
  sha256_hexdigest (block_string (index b) (timestamp b) (transactions b) (previous_hash b)).

Definition set_transactions (txns : list Transaction) (b : Block) : Block :=
  {| index := index b; timestamp := timestamp b; transactions := txns;
     previous_hash := previous_hash b; hash := hash b |}.

(** ** BlockchainLedger *)

Record BlockchainLedger := {
  chain : list Block;
  all_transactions : list Transaction
}.

(** [get_latest_block]: [self.chain[-1]] *)
Definition get_latest_block (l : BlockchainLedger) : result Block :=
  match last (chain l) with
  | Some b => Ok b
  | None => Raise IndexError
  end.

(** One pass of the loop of [is_chain_valid] for each index in [idx]. *)
Fixpoint is_chain_valid_from (chain : list Block) (idx : list nat) : bool :=
  match idx with
  | [] => true
  | i :: rest =>
      match chain !! i, chain !! (i - 1)%nat with
      | Some curr, Some prev =>
          if negb (String.eqb (hash curr) (calculate_hash curr))
             || negb (String.eqb (previous_hash curr) (hash prev))
          then false
          else is_chain_valid_from chain rest
      | _, _ => false (* index out of range: not reached from [is_chain_valid] *)
      end
  end.

(** [is_chain_valid]: [for i in range(1, len(self.chain))] *)
Definition is_chain_valid (l : BlockchainLedger) : bool :=
  is_chain_valid_from (chain l) (seq 1 (length (chain l) - 1)).

(** A row of the data frame: a value for each column name. *)
Definition Row := gmap string pyval.

(** [row[key]] *)
Definition row_get (row : Row) (key : string) : result pyval :=
  match row !! key with
  | Some v => Ok v
  | None => Raise (KeyError key)
  end.

Section Ledger.

Variable rt : Runtime.

(** [Block.__init__]: the [tick]-th reading of the clock becomes the
    timestamp; the stored hash is computed from the fields just set. *)
Definition Block_init (index : Z) (transactions : list Transaction)
    (previous_hash : string) (tick : nat) : Block * nat :=
  let timestamp := time_time rt tick in
  ({| index := index;
      timestamp := timestamp;
      transactions := transactions;
      previous_hash := previous_hash;
      hash := sha256_hexdigest (block_string index timestamp transactions previous_hash) |},
   S tick).

(** [create_genesis_block] *)
Definition create_genesis_block (tick : nat) : Block * nat := Block_init 0 [] "0" tick.

(** [BlockchainLedger.__init__] *)
Definition BlockchainLedger_init (tick : nat) : BlockchainLedger * nat :=
  let '(genesis, tick) := create_genesis_block tick in
  ({| chain := [genesis]; all_transactions := [] |}, tick).

(** [add_block]. [get_latest_block] is called before anything is changed,
    so a raise leaves the ledger and the clock as they were. *)
Definition add_block (l : BlockchainLedger) (transactions : list Transaction)
    (tick : nat) : result (BlockchainLedger * nat) :=
  let index := Z.of_nat (length (chain l)) in
  let* latest := get_latest_block l in
  let prev_hash := hash latest in
  let '(new_block, tick) := Block_init index transactions prev_hash tick in
  Ok ({| chain := chain l ++ [new_block];
         all_transactions := all_transactions l ++ transactions |}, tick).

(** The argument list of the [Transaction(...)] call in
    [process_transactions], evaluated left to right. *)
Definition Transaction_of_row (row : Row) : result Transaction :=
  let* sender := row_get row "Sender_account" in
  let* receiver := row_get row "Receiver_account" in
  let* amount_raw := row_get row "Amount" in
  let* amount := py_float rt amount_raw in
  let* currency := row_get row "Payment_currency" in
  let* flag_raw := row_get row "Is_laundering" in
  let* flag := py_int rt flag_raw in
  let* payment_type := row_get row "Payment_type" in
  Ok (Transaction_init sender receiver (PyFloat amount) currency (PyInt flag) payment_type).

(** The variables that the loop of [process_transactions] updates. *)
Record loop_state := {
  ledger : BlockchainLedger;
  txn_batch : list Transaction;
  clock : nat
}.

(** The body of the [try]: the state in which it ends, and the exception
    if it ended by one. A [Transaction] that cannot be built raises before
    anything is changed; a raise from [add_block] comes after the append to
    [txn_batch]. After [add_block] the name [txn_batch] is bound to a new
    list, so the list held by the block is not appended to again. *)
Definition try_body (block_size : Z) (st : loop_state) (row : Row)
    : loop_state * option exn :=
  match Transaction_of_row row with
  | Raise e => (st, Some e)
  | Ok txn =>
      let batch := txn_batch st ++ [txn] in
      let st1 := {| ledger := ledger st; txn_batch := batch; clock := clock st |} in
      if Z.of_nat (length batch) >=? block_size then
        match add_block (ledger st) batch (clock st) with
        | Raise e => (st1, Some e)
        | Ok (l, tick) => ({| ledger := l; txn_batch := []; clock := tick |}, None)
        end
      else (st1, None)
  end.

(** [try: ... except Exception: continue] *)
Definition loop_step (block_size : Z) (st : loop_state) (row : Row) : loop_state :=
  fst (try_body block_size st row).

(** [process_transactions(df, block_size)], started when the clock has been
    read [tick] times. The result cache of [st.cache_data] is not part of
    the function and is left out. *)
Definition process_transactions_at (tick : nat) (df : list Row) (block_size : Z)
    : result BlockchainLedger :=
  let '(l0, tick) := BlockchainLedger_init tick in
  let st := fold_left (loop_step block_size)
                      df {| ledger := l0; txn_batch := []; clock := tick |} in
  match txn_batch st with
  | [] => Ok (ledger st)
  | _ :: _ => let* r := add_block (ledger st) (txn_batch st) (clock st) in Ok (fst r)
  end.

Definition process_transactions (df : list Row) (block_size : Z) : result BlockchainLedger :=
  process_transactions_at 0 df block_size.

End Ledger.

(** ** Notions used to state the properties *)

(** The text a block's digest is computed from. *)
Definition block_text (b : Block) : string :=
  block_string (index b) (timestamp b) (transactions b) (previous_hash b).

(** The checks of [is_chain_valid] by recursion on the chain: [curr] is
    checked against its own recomputed digest and the stored digest of
    [prev]. *)
Fixpoint links_ok (prev : Block) (rest : list Block) : bool :=
  match rest with
  | [] => true
  | curr :: rest' =>
      String.eqb (hash curr) (calculate_hash curr)
      && String.eqb (previous_hash curr) (hash prev)
      && links_ok curr rest'
  end.

(** Verification as the specification words it: the link of each block is
    compared with the RECOMPUTED digest of the block before it. *)
Definition verify_spec (chain : list Block) : bool :=
  forallb
    (fun i =>
       match chain !! i, chain !! (i - 1)%nat with
       | Some curr, Some prev =>
           String.eqb (hash curr) (calculate_hash curr)
           && String.eqb (previous_hash curr) (calculate_hash prev)
       | _, _ => false
       end)
    (seq 1 (length chain - 1)).

(** The digest as the specification words it: the hash of the pieces
    joined in order, each transaction contributing its six fields in the
    order sender, receiver, amount, currency, payment type, status. *)
Definition status_marker (t : Transaction) : string :=
  if is_laundering t then "🚨 Suspicious" else "✅ Normal".

Definition canonical_form (t : Transaction) : string :=
  fold_right String.append ""
    [py_str (sender t); " → "; py_str (receiver t); " | ";
     py_str (amount t); " "; py_str (currency t); " | ";
     py_str (payment_type t); " | "; status_marker t].

Definition digest_spec (b : Block) : string :=
  sha256_hexdigest
    (fold_right String.append ""
       ([str_int (index b); float_repr (timestamp b)]
          ++ map canonical_form (transactions b) ++ [previous_hash b])).

(** Number of characters after the decimal point, when there is one. *)
Fixpoint fraction_digits_of (cs : list ascii) : option nat :=
  match cs with
  | [] => None
  | c :: r => if Text.code c =? 46 then Some (length r) else fraction_digits_of r
  end.
Definition fraction_digits (s : string) : option nat :=
  fraction_digits_of (list_ascii_of_string s).

(** [s] is a decimal numeral whose value is exactly the float [x]. *)
Definition denotes_exactly (s : string) (x : float) : bool :=
  match Text.parse_decimal s, x with
  | Some (Text.Dec_num sg n k), S754_finite sx m e =>
      Bool.eqb sg sx
      && (n * 10 ^ Z.max k 0 * 2 ^ Z.max (- e) 0 =? Zpos m * 2 ^ Z.max e 0 * 10 ^ Z.max (- k) 0)
  | Some (Text.Dec_num sg n k), S754_zero sx => Bool.eqb sg sx && (n =? 0)
  | _, _ => false
  end.

Definition is_finite (x : float) : bool :=
  match x with S754_finite _ _ _ | S754_zero _ => true | _ => false end.

(** The amount as it appears in the canonical string of a transaction
    whose amount is the float [x]. *)
Definition amount_text (x : float) : string := py_str (PyFloat x).

Definition amount_fixed_precision : Prop :=
  exists p : nat, forall x, is_finite x = true -> fraction_digits (amount_text x) = Some p.

Definition amount_exact_decimal : Prop :=
  forall x, is_finite x = true -> denotes_exactly (amount_text x) x = true.

(** Number of transactions in each block of a chain. *)
Definition sizes (c : list Block) : list nat :=
  map (fun b => length (transactions b)) c.

(** A chain as the constructor and [add_block] leave it. *)
Definition wf_ledger (l : BlockchainLedger) : Prop :=
  (exists g rest, chain l = g :: rest /\ hash g = calculate_hash g /\ links_ok g rest = true)
  /\ all_transactions l = concat (map transactions (chain l)).

(** Assignment [upd] to the [j]-th transaction of block [i]. The same
    object is also an element of [all_transactions], at the position given
    by the sizes of the blocks before block [i]. *)
Definition tamper (i j : nat) (upd : field_update) (l : BlockchainLedger) : BlockchainLedger :=
  match chain l !! i with
  | Some b =>
      match transactions b !! j with
      | Some t =>
          let t' := set_field upd t in
          let offset := length (concat (map transactions (take i (chain l)))) in
          {| chain := <[i := set_transactions (<[j := t']> (transactions b)) b]> (chain l);
             all_transactions := <[(offset + j)%nat := t']> (all_transactions l) |}
      | None => l
      end
  | None => l
  end.

(** Replacement of the genesis block object's fields. *)
Definition set_genesis (g' : Block) (l : BlockchainLedger) : BlockchainLedger :=
  {| chain := <[0%nat := g']> (chain l); all_transactions := all_transactions l |}.

Section Ingestion.

Variable rt : Runtime.

(** The transaction built from a row, when one is. *)
Definition row_txn (row : Row) : option Transaction :=
  match Transaction_of_row rt row with
  | Ok t => Some t
  | Raise _ => None
  end.

Definition malformed (row : Row) : bool :=
  match Transaction_of_row rt row with
  | Ok _ => false
  | Raise _ => true
  end.

(** The transactions of the valid rows, in row order. *)
Definition valid_txns (df : list Row) : list Transaction := omap row_txn df.

(** What one valid row does to the loop state. *)
Definition push (block_size : Z) (st : loop_state) (txn : Transaction) : loop_state :=
  let batch := txn_batch st ++ [txn] in
  let st1 := {| ledger := ledger st; txn_batch := batch; clock := clock st |} in
  if Z.of_nat (length batch) >=? block_size then
    match add_block rt (ledger st) batch (clock st) with
    | Raise e => st1
    | Ok (l, tick) => {| ledger := l; txn_batch := []; clock := tick |}
    end
  else st1.

(** What holds of the loop state once the transactions [done] have been
    taken in. *)
Definition base_inv (st : loop_state) (done : list Transaction) : Prop :=
  wf_ledger (ledger st) /\ all_transactions (ledger st) ++ txn_batch st = done.

(** With a positive block size [b]: the pending batch is short of [b] and
    every block after the genesis block holds [b] transactions. *)
Definition batch_inv (b : nat) (st : loop_state) : Prop :=
  (length (txn_batch st) < b)%nat
  /\ exists q, sizes (chain (ledger st)) = 0%nat :: repeat b q.

(** With a block size of zero or less: nothing is ever left pending and
    every block after the genesis block holds one transaction. *)
Definition unit_inv (st : loop_state) : Prop :=
  txn_batch st = [] /\ exists q, sizes (chain (ledger st)) = 0%nat :: repeat 1%nat q.

End Ingestion.

(** Block sizes of a ledger built from [v] valid rows with block size [b]:
    the genesis block, [v / b] full blocks, and the remainder if any. *)
Definition block_sizes (b v : nat) : list nat :=
  0%nat :: repeat b (v / b)%nat
    ++ (if (v mod b =? 0)%nat then [] else [(v mod b)%nat]).

(** ** A concrete run *)

Module Demo.

(** A clock that starts at 1730664000.0 and advances one second per reading;
    numbers are read from ASCII text. *)
Definition rt : Runtime :=
  {| time_time := fun n => float_of_Z (1730664000 + Z.of_nat n);
     str_to_float := Text.parse_float;
     str_to_int := Text.parse_int |}.

Definition row (amount flag : pyval) : Row :=
  list_to_map
    [("Sender_account", PyInt 1001); ("Receiver_account", PyInt 2002);
     ("Amount", amount); ("Payment_currency", PyStr "USD");
     ("Is_laundering", flag); ("Payment_type", PyStr "Wire")].

Definition good_row : Row := row (PyStr "100.5") (PyInt 0).
Definition bad_amount_row : Row := row (PyStr "abc") (PyInt 0).
Definition bad_flag_row : Row := row (PyStr "100.5") (PyStr "maybe").

(** 0.1, 0.125 and 100.0 as doubles *)
Definition tenth : float := S754_finite false 7205759403792794 (-56).
Definition eighth : float := S754_finite false 4503599627370496 (-55).
Definition hundred : float := S754_finite false 7036874417766400 (-46).

Definition txn (x : float) : Transaction :=
  Transaction_init (PyInt 1001) (PyInt 2002) (PyFloat x) (PyStr "USD") (PyInt 0) (PyStr "Wire").

(** The ledger built from three good rows with blocks of two. *)
Definition built : BlockchainLedger :=
  match process_transactions rt [good_row; good_row; good_row] 2 with
  | Ok l => l
  | Raise _ => {| chain := []; all_transactions := [] |}
  end.

(** A genesis block whose transaction list has been given an element
    after construction; every other field, the stored hash included, is as
    built. *)
Definition forged_genesis : Block :=
  match chain built with
  | g :: _ => set_transactions [txn hundred] g
  | [] => {| index := 0; timestamp := S754_zero false; transactions := [];
             previous_hash := ""; hash := "" |}
  end.

Definition forged : BlockchainLedger := set_genesis forged_genesis built.

(** A ledger as the constructor leaves it. *)
Definition fresh : BlockchainLedger := fst (BlockchainLedger_init rt 0).

End Demo.

(** * The rest of the ledger: comparisons, queries, labels *)

(** ** [==] and [<] on Python values

    Numbers ([bool], [int], [float]) compare by exact value across the
    three types; text compares with text, by code point (which is the order
    of the UTF-8 bytes); [==] between values of different kinds is false,
    [<] between them raises. Python floats are the canonical members of
    [spec_float], on which [SFcompare] is the order of the values. *)

Inductive num := Num_int (z : Z) | Num_float (x : float).

Definition as_num (v : pyval) : option num :=
  match v with
  | PyBool b => Some (Num_int (if b then 1 else 0))
  | PyInt n => Some (Num_int n)
  | PyFloat x => Some (Num_float x)
  | PyNone | PyStr _ => None
  end.

Definition compare_int_float (z : Z) (x : float) : option comparison :=
  match x with
  | S754_nan => None
  | S754_infinity s => Some (if s then Gt else Lt)
  | S754_zero _ => Some (z ?= 0)
  | S754_finite s m e =>
      let v := if s then Zneg m else Zpos m in
      Some (if 0 <=? e then z ?= v * 2 ^ e else z * 2 ^ (- e) ?= v)
  end.

Definition num_compare (a b : num) : option comparison :=
  match a, b with
  | Num_int x, Num_int y => Some (x ?= y)
  | Num_float x, Num_float y => SFcompare x y
  | Num_int x, Num_float y => compare_int_float x y
  | Num_float x, Num_int y => option_map CompOpp (compare_int_float y x)
  end.

(** [a == b] *)
Definition py_eq (a b : pyval) : bool :=
  match as_num a, as_num b with
  | Some x, Some y => match num_compare x y with Some Eq => true | _ => false end
  | None, None =>
      match a, b with
      | PyStr s, PyStr t => String.eqb s t
      | PyNone, PyNone => true
      | _, _ => false
      end
  | _, _ => false
  end.

(** [a < b] *)
Definition py_lt (a b : pyval) : result bool :=
  match as_num a, as_num b with
  | Some x, Some y => Ok match num_compare x y with Some Lt => true | _ => false end
  | None, None =>
      match a, b with
      | PyStr s, PyStr t => Ok (String.ltb s t)
      | _, _ => Raise TypeError
      end
  | _, _ => Raise TypeError
  end.

(** ** [sorted(items, key=..., reverse=...)]

    CPython's sort is stable and compares keys with [<] only; with
    [reverse] it reverses the list, sorts it, and reverses the result.
    Whenever [<] orders the keys (as it does for numbers other than nan,
    and for text) the result is the one stable arrangement, computed here
    by insertion. Keys that [<] does not order (a nan among them) are
    arranged by CPython according to the run and merge strategy of its sort,
    which this model does not follow. *)

(** [x] goes before the first element that it is less than. *)
Fixpoint insert_by {A : Type} (key : A -> pyval) (x : A) (l : list A) : result (list A) :=
  match l with
  | [] => Ok [x]
  | y :: r =>
      let* c := py_lt (key x) (key y) in
      if c then Ok (x :: y :: r)
      else let* r' := insert_by key x r in Ok (y :: r')
  end.

Fixpoint sort_by {A : Type} (key : A -> pyval) (done : list A) (l : list A)
    : result (list A) :=
  match l with
  | [] => Ok done
  | x :: r => let* done' := insert_by key x done in sort_by key done' r
  end.

Definition py_sorted {A : Type} (key : A -> pyval) (reverse : bool) (l : list A)
    : result (list A) :=
  if reverse then let* s := sort_by key [] (rev l) in Ok (rev s)
  else sort_by key [] l.

(** ** The queries of [BlockchainLedger] *)

(** [search_by_account] *)
Definition search_by_account (l : BlockchainLedger) (account_id : pyval) : list Transaction :=
  List.filter (fun txn => py_eq (sender txn) account_id || py_eq (receiver txn) account_id)
              (all_transactions l).

(** [filter_by_laundering] *)
Definition filter_by_laundering (l : BlockchainLedger) (status : pyval) : list Transaction :=
  List.filter (fun txn => py_eq (PyBool (is_laundering txn)) status) (all_transactions l).

(** [sort_by_amount] *)
Definition sort_by_amount (l : BlockchainLedger) (descending : bool)
    : result (list Transaction) :=
  py_sorted amount descending (all_transactions l).

(** [summary]: [sum] adds the flags, as 0 and 1, from the left. *)
Definition summary (l : BlockchainLedger) : gmap string Z :=
  let laundering :=
    fold_left (fun acc txn => acc + (if is_laundering txn then 1 else 0))
              (all_transactions l) 0 in
  let total := Z.of_nat (length (all_transactions l)) in
  list_to_map
    [("Total Transactions", total);
     ("Suspicious", laundering);
     ("Normal", total - laundering);
     ("Total Blocks", Z.of_nat (length (chain l)))].

(** ** [Block.__str__] *)

(** [s[:n]]: the first [n] characters of [s]. A byte 10xxxxxx continues the
    character begun before it. *)
Definition is_continuation (c : ascii) : bool :=
  (128 <=? Text.code c) && (Text.code c <? 192).

Fixpoint take_chars (n : nat) (cs : list ascii) : list ascii :=
  match cs with
  | [] => []
  | c :: r =>
      if is_continuation c then c :: take_chars n r
      else match n with
           | O => []
           | S m => c :: take_chars m r
           end
  end.

Definition str_prefix (n : nat) (s : string) : string :=
  string_of_list_ascii (take_chars n (list_ascii_of_string s)).

Definition Block_str (b : Block) : string :=
  "Block #" +:+ str_int (index b) +:+ " | Hash: " +:+ str_prefix 10 (hash b)
    +:+ "... | Prev: " +:+ str_prefix 10 (previous_hash b) +:+ "...".

(** ** Notions used to state the further properties *)

(** Replacement of block [i] by [b']. *)
Definition set_block (i : nat) (b' : Block) (l : BlockchainLedger) : BlockchainLedger :=
  {| chain := <[i := b']> (chain l); all_transactions := all_transactions l |}.

(** A block with the transactions [txns] put in place of its own and its
    stored hash recomputed to match. *)
Definition rehashed (txns : list Transaction) (b : Block) : Block :=
  {| index := index b; timestamp := timestamp b; transactions := txns;
     previous_hash := previous_hash b;
     hash := sha256_hexdigest (block_string (index b) (timestamp b) txns (previous_hash b)) |}.

(** The chain cut down to its first [k] blocks. *)
Definition truncated (k : nat) (l : BlockchainLedger) : BlockchainLedger :=
  {| chain := take k (chain l); all_transactions := all_transactions l |}.

(** The amount of a transaction as a float, when it is one. *)
Definition float_amount (t : Transaction) : option float :=
  match amount t with PyFloat x => Some x | _ => None end.

(** The amount is a float other than nan. *)
Definition ordered_amount (t : Transaction) : Prop :=
  exists x, amount t = PyFloat x /\ x <> S754_nan.

Definition has_ordered_amount (t : Transaction) : bool :=
  match amount t with
  | PyFloat S754_nan => false
  | PyFloat _ => true
  | _ => false
  end.

(** [amount a < amount b], for amounts that can be compared. *)
Definition amount_lt (a b : Transaction) : bool :=
  match py_lt (amount a) (amount b) with Ok c => c | Raise _ => false end.

(** Where a float stands among the floats other than nan: by class, then
    exponent, then mantissa. *)
Definition float_rank (x : float) : Z * Z * Z :=
  match x with
  | S754_infinity true => (-2, 0, 0)
  | S754_finite true m e => (-1, - e, Zneg m)
  | S754_zero _ => (0, 0, 0)
  | S754_finite false m e => (1, e, Zpos m)
  | S754_infinity false => (2, 0, 0)
  | S754_nan => (3, 0, 0)
  end.

Definition rank_lt (a b : Z * Z * Z) : Prop :=
  let '(a1, a2, a3) := a in
  let '(b1, b2, b3) := b in
  a1 < b1 \/ (a1 = b1 /\ (a2 < b2 \/ (a2 = b2 /\ a3 < b3))).

Definition amount_rank (t : Transaction) : Z * Z * Z :=
  match amount t with PyFloat x => float_rank x | _ => (3, 0, 0) end.

(** Neither amount is less than the other. *)
Definition same_amount (a b : Transaction) : bool :=
  negb (amount_lt a b) && negb (amount_lt b a).

(** No element of [l] is followed, anywhere later, by one that [lt]
    puts before it. *)
Fixpoint ordered_by {A : Type} (lt : A -> A -> bool) (l : list A) : Prop :=
  match l with
  | [] => True
  | x :: r => Forall (fun y => lt y x = false) r /\ ordered_by lt r
  end.

(** Every character is one of 0-9, a-f. *)
Definition is_hex_char (c : ascii) : bool :=
  ((48 <=? Text.code c) && (Text.code c <=? 57))
  || ((97 <=? Text.code c) && (Text.code c <=? 102)).

(** The blocks of [l] carry their position as index and the clock readings
    from [t0] on as timestamps; [tick] readings have been made. *)
Definition shaped (rt : Runtime) (t0 : nat) (l : BlockchainLedger) (tick : nat) : Prop :=
  tick = (t0 + length (chain l))%nat
  /\ forall i b, chain l !! i = Some b ->
       index b = Z.of_nat i /\ timestamp b = time_time rt (t0 + i)%nat.

(** The first block is a genesis block and no other block is empty. *)
Definition genesis_first (l : BlockchainLedger) : Prop :=
  (exists g, chain l !! 0%nat = Some g /\ transactions g = [] /\ previous_hash g = "0")
  /\ forall i b, chain l !! S i = Some b -> transactions b <> [].

(** The six columns that [process_transactions] reads. *)
Definition columns : list string :=
  ["Sender_account"; "Receiver_account"; "Amount"; "Payment_currency";
   "Is_laundering"; "Payment_type"].

(** Every character of [s] passes [ok]. *)
Fixpoint string_all (ok : ascii -> bool) (s : string) : bool :=
  match s with
  | EmptyString => true
  | String c r => ok c && string_all ok r
  end.

(** The characters of a plain or exponent decimal numeral: 0-9 . - + e *)
Definition is_decimal_char (c : ascii) : bool :=
  Text.is_digit c
  || (Text.code c =? 46) || (Text.code c =? 45) || (Text.code c =? 43)
  || (Text.code c =? 101).

(** The test of [search_by_account] on one transaction. *)
Definition account_matches (account_id : pyval) (txn : Transaction) : bool :=
  py_eq (sender txn) account_id || py_eq (receiver txn) account_id.

(** ** More sample data *)

Module Sample.

Definition row (s r a f : pyval) : Row :=
  list_to_map
    [("Sender_account", s); ("Receiver_account", r); ("Amount", a);
     ("Payment_currency", PyStr "EUR"); ("Is_laundering", f);
     ("Payment_type", PyStr "Cash")].

(** A row without the column [Amount]. *)
Definition short_row : Row :=
  list_to_map
    [("Sender_account", PyInt 1); ("Receiver_account", PyInt 2);
     ("Payment_currency", PyStr "EUR"); ("Is_laundering", PyInt 0);
     ("Payment_type", PyStr "Cash")].

Definition df : list Row :=
  [row (PyInt 1001) (PyInt 2002) (PyStr "75.5") (PyInt 1);
   row (PyInt 3003) (PyInt 1001) (PyStr "250.0") (PyInt 0);
   row (PyInt 3003) (PyInt 4004) (PyStr "oops") (PyInt 0);
   row (PyStr "ACME") (PyStr "BOLT") (PyInt 250) (PyStr "0");
   row (PyInt 2002) (PyInt 3003) (PyFloat Demo.eighth) (PyInt 1);
   row (PyInt 4004) (PyInt 1001) (PyStr "75.50") (PyInt 0)].

(** Five valid rows in blocks of two. *)
Definition built : BlockchainLedger :=
  match process_transactions Demo.rt df 2 with
  | Ok l => l
  | Raise _ => {| chain := []; all_transactions := [] |}
  end.

Definition nth_block (i : nat) : Block :=
  default {| index := 0; timestamp := S754_zero false; transactions := [];
             previous_hash := ""; hash := "" |} (chain built !! i).

End Sample.

(** * Properties *)

(** ** The built-ins agree with known values *)

Example sha256_empty :
  sha256_hexdigest ""
  = "e3b0c44298fc1c149afbf4c8996fb92427ae41e4649b934ca495991b7852b855".
Proof. vm_compute. reflexivity. Qed.

Example sha256_abc :
  sha256_hexdigest "abc"
  = "ba7816bf8f01cfea414140de5dae2223b00361a396177a9cb410ff61f20015ad".
Proof. vm_compute. reflexivity. Qed.

Example sha256_two_blocks :
  sha256_hexdigest "abcdbcdecdefdefgefghfghighijhijkijkljklmklmnlmnomnopnopq"
  = "248d6a61d20638b8e5c026930c3e6039a33ce45964ff2167f6ecedd419db06c1".
Proof. vm_compute. reflexivity. Qed.

Example float_repr_samples :
  map float_repr
    [Demo.tenth; Demo.hundred; float_of_Z (10 ^ 16); float_of_Z (10 ^ 15);
     float_of_decimal false 15 (-6); float_of_decimal true 1730664000123456 (-6);
     S754_finite false 1 (-1074); float_of_decimal false 30000000000000004 (-17)]
  = ["0.1"; "100.0"; "1e+16"; "1000000000000000.0"; "1.5e-05"; "-1730664000.123456";
     "5e-324"; "0.30000000000000004"].
Proof. vm_compute. reflexivity. Qed.

Example parse_float_samples :
  map Text.parse_float [" 1.5 "; "1_0.5"; "1e5"; "-inf"; "abc"; "1e"; "."; ""]
  = [Some (float_of_decimal false 15 (-1)); Some (float_of_decimal false 105 (-1));
     Some (float_of_Z 100000); Some (S754_infinity true); None; None; None; None].
Proof. vm_compute. reflexivity. Qed.

Example parse_int_samples :
  map Text.parse_int [" 12 "; "+1_000"; "-7"; "1__0"; "1.0"; "maybe"; ""]
  = [Some 12; Some 1000; Some (-7); None; None; None; None].
Proof. vm_compute. reflexivity. Qed.

(** ** The walk of [is_chain_valid] *)

Lemma eqb_pair_true (a b c d : string) :
  String.eqb a b && String.eqb c d = true <-> a = b /\ c = d.
Proof.
  rewrite andb_true_iff, !String.eqb_eq. reflexivity.
Qed.

(** The index loop, started just after a block [p] that has [pre] before
    it, performs the checks of [links_ok] on what follows [p]. *)
Lemma is_chain_valid_from_links (rest pre : list Block) (p : Block) :
  is_chain_valid_from (pre ++ p :: rest) (seq (S (length pre)) (length rest))
  = links_ok p rest.
Proof.
  revert pre p. induction rest as [|c rest IH]; intros pre p; [reflexivity|].
  cbn [length seq is_chain_valid_from links_ok].
  replace (S (length pre) - 1)%nat with (length pre) by lia.
  assert (Hc : (pre ++ p :: c :: rest) !! S (length pre) = Some c).
  { rewrite lookup_app_r by lia.
    replace (S (length pre) - length pre)%nat with 1%nat by lia. reflexivity. }
  assert (Hp : (pre ++ p :: c :: rest) !! length pre = Some p).
  { rewrite lookup_app_r by lia. rewrite Nat.sub_diag. reflexivity. }
  rewrite Hc, Hp.
  specialize (IH (pre ++ [p]) c).
  rewrite <- app_assoc, length_app in IH. cbn [length app] in IH.
  replace (length pre + 1)%nat with (S (length pre)) in IH by lia.
  rewrite IH.
  destruct (String.eqb (hash c) (calculate_hash c)),
           (String.eqb (previous_hash c) (hash p)); reflexivity.
Qed.

Lemma is_chain_valid_cons (g : Block) (rest : list Block) (txns : list Transaction) :
  is_chain_valid {| chain := g :: rest; all_transactions := txns |} = links_ok g rest.
Proof.
  unfold is_chain_valid. cbn [chain length].
  replace (S (length rest) - 1)%nat with (length rest) by lia.
  apply (is_chain_valid_from_links rest [] g).
Qed.

Lemma links_ok_spec (rest : list Block) (p : Block) :
  links_ok p rest = true <->
  forall i curr prev,
    (p :: rest) !! S i = Some curr -> (p :: rest) !! i = Some prev ->
    hash curr = calculate_hash curr /\ previous_hash curr = hash prev.
Proof.
  revert p. induction rest as [|c rest IH]; intros p.
  - split; [intros _ i curr prev H; destruct i; discriminate | reflexivity].
  - cbn [links_ok]. rewrite andb_true_iff, eqb_pair_true, IH. split.
    + intros [Hc Hrest] i curr prev Hi Hj. destruct i as [|i].
      * cbn in Hi, Hj. injection Hi as <-. injection Hj as <-. exact Hc.
      * exact (Hrest i curr prev Hi Hj).
    + intros H. split.
      * exact (H 0%nat c p eq_refl eq_refl).
      * intros i curr prev Hi Hj. exact (H (S i) curr prev Hi Hj).
Qed.

(** Only the stored hash of the first block enters the walk. *)
Lemma links_ok_head (g g' : Block) (rest : list Block) :
  hash g' = hash g -> links_ok g' rest = links_ok g rest.
Proof.
  intros H. destruct rest as [|c rest]; [reflexivity|].
  cbn [links_ok]. rewrite H. reflexivity.
Qed.

(** A block that does not recompute to its stored hash fails the walk. *)
Lemma links_ok_bad (rest : list Block) (p b : Block) (k : nat) :
  rest !! k = Some b -> hash b <> calculate_hash b -> links_ok p rest = false.
Proof.
  revert p k. induction rest as [|c rest IH]; intros p k Hk Hb; [discriminate|].
  cbn [links_ok]. destruct k as [|k].
  - injection Hk as ->.
    apply String.eqb_neq in Hb. rewrite Hb. reflexivity.
  - rewrite (IH c k Hk Hb). apply andb_false_r.
Qed.

Lemma links_ok_snoc (rest : list Block) (p b : Block) :
  links_ok p (rest ++ [b])
  = links_ok p rest
    && (String.eqb (hash b) (calculate_hash b)
        && String.eqb (previous_hash b) (hash (default p (last rest)))).
Proof.
  revert p. induction rest as [|c rest IH]; intros p.
  - cbn. rewrite andb_true_r. reflexivity.
  - cbn [app links_ok]. rewrite IH, <- !andb_assoc.
    replace (default c (last rest)) with (default p (last (c :: rest))); [reflexivity|].
    rewrite last_cons. destruct (last rest); reflexivity.
Qed.

(** When the first block recomputes to its stored hash, the walk of the
    code and the wording of the specification agree. *)
Lemma verify_spec_from_links (rest pre : list Block) (p : Block) :
  hash p = calculate_hash p ->
  forallb
    (fun i =>
       match (pre ++ p :: rest) !! i, (pre ++ p :: rest) !! (i - 1)%nat with
       | Some curr, Some prev =>
           String.eqb (hash curr) (calculate_hash curr)
           && String.eqb (previous_hash curr) (calculate_hash prev)
       | _, _ => false
       end)
    (seq (S (length pre)) (length rest))
  = links_ok p rest.
Proof.
  revert pre p. induction rest as [|c rest IH]; intros pre p Hp; [reflexivity|].
  cbn [length seq forallb links_ok].
  replace (S (length pre) - 1)%nat with (length pre) by lia.
  assert (Hc : (pre ++ p :: c :: rest) !! S (length pre) = Some c).
  { rewrite lookup_app_r by lia.
    replace (S (length pre) - length pre)%nat with 1%nat by lia. reflexivity. }
  assert (Hp' : (pre ++ p :: c :: rest) !! length pre = Some p).
  { rewrite lookup_app_r by lia. rewrite Nat.sub_diag. reflexivity. }
  rewrite Hc, Hp', <- Hp.
  destruct (String.eqb (hash c) (calculate_hash c)) eqn:Hcc; [|reflexivity].
  apply String.eqb_eq in Hcc.
  specialize (IH (pre ++ [p]) c Hcc).
  rewrite <- app_assoc, length_app in IH. cbn [length app] in IH.
  replace (length pre + 1)%nat with (S (length pre)) in IH by lia.
  rewrite IH. reflexivity.
Qed.

Lemma verify_spec_agrees (g : Block) (rest : list Block) (txns : list Transaction) :
  hash g = calculate_hash g ->
  is_chain_valid {| chain := g :: rest; all_transactions := txns |}
  = verify_spec (g :: rest).
Proof.
  intros Hg. rewrite is_chain_valid_cons. unfold verify_spec. cbn [length].
  replace (S (length rest) - 1)%nat with (length rest) by lia.
  symmetry. apply (verify_spec_from_links rest [] g Hg).
Qed.

(** C1 (as amended): [is_chain_valid] returns true exactly when every block
    from index 1 onward recomputes to its stored hash and carries, as
    [previous_hash], the STORED hash of the block before it. The hash of
    the genesis block is never recomputed. *)
Theorem is_chain_valid_iff (l : BlockchainLedger) :
  is_chain_valid l = true <->
  forall i curr prev,
    chain l !! S i = Some curr -> chain l !! i = Some prev ->
    hash curr = calculate_hash curr /\ previous_hash curr = hash prev.
Proof.
  destruct l as [[|g rest] txns].
  - split; [intros _ i curr prev H; discriminate | reflexivity].
  - rewrite is_chain_valid_cons. apply links_ok_spec.
Qed.

Lemma is_chain_valid_iff_witness :
  is_chain_valid Demo.built = true
  /\ exists curr prev,
       chain Demo.built !! 2%nat = Some curr /\ chain Demo.built !! 1%nat = Some prev
       /\ hash curr = calculate_hash curr /\ previous_hash curr = hash prev.
Proof.
  assert (Hvalid : is_chain_valid Demo.built = true) by (vm_compute; reflexivity).
  split; [exact Hvalid|].
  destruct (chain Demo.built !! 2%nat) as [curr|] eqn:Hc; [|vm_compute in Hc; discriminate Hc].
  destruct (chain Demo.built !! 1%nat) as [prev|] eqn:Hp; [|vm_compute in Hp; discriminate Hp].
  exists curr, prev. split; [reflexivity|]. split; [reflexivity|].
  exact (proj1 (is_chain_valid_iff Demo.built) Hvalid 1%nat curr prev Hc Hp).
Defined.

(** C1 (as stated) fails: in [Demo.forged] the genesis block no longer
    recomputes to its stored hash, the check worded with the recomputed
    digest of the prior block rejects the chain, yet [is_chain_valid]
    returns true. *)
Lemma is_chain_valid_accepts_forged_genesis :
  (exists g, chain Demo.forged !! 0%nat = Some g /\ hash g <> calculate_hash g)
  /\ verify_spec (chain Demo.forged) = false
  /\ is_chain_valid Demo.forged = true.
Proof.
  split; [|split].
  - exists Demo.forged_genesis. split; [reflexivity|].
    intros H. vm_compute in H. discriminate H.
  - vm_compute. reflexivity.
  - vm_compute. reflexivity.
Qed.

(** ** The ledger operations keep the chain well formed *)

Section IngestionFacts.

Variable rt : Runtime.

Lemma wf_ledger_valid (l : BlockchainLedger) : wf_ledger l -> is_chain_valid l = true.
Proof.
  destruct l as [c txns]. intros [(g & rest & Hc & _ & Hl) _].
  cbn [chain] in Hc. subst c. rewrite is_chain_valid_cons. exact Hl.
Qed.

Lemma BlockchainLedger_init_wf (tick : nat) :
  exists g,
    BlockchainLedger_init rt tick
    = ({| chain := [g]; all_transactions := [] |}, S tick)
    /\ transactions g = []
    /\ wf_ledger {| chain := [g]; all_transactions := [] |}.
Proof.
  eexists. split; [reflexivity|]. split; [reflexivity|].
  split; [|reflexivity].
  eexists _, []. split; [reflexivity|]. split; reflexivity.
Qed.

Lemma add_block_wf (l : BlockchainLedger) (txns : list Transaction) (tick : nat) :
  wf_ledger l ->
  exists b,
    add_block rt l txns tick
    = Ok ({| chain := chain l ++ [b]; all_transactions := all_transactions l ++ txns |},
          S tick)
    /\ transactions b = txns
    /\ wf_ledger {| chain := chain l ++ [b]; all_transactions := all_transactions l ++ txns |}.
Proof.
  destruct l as [c all]. intros [(g & rest & Hc & Hg & Hl) Hall].
  cbn [chain all_transactions] in *. subst c.
  unfold add_block, get_latest_block. cbn [chain all_transactions].
  assert (Hlast : last (g :: rest) = Some (default g (last rest))).
  { rewrite last_cons. destruct (last rest); reflexivity. }
  rewrite Hlast. cbn [bind Block_init].
  eexists. split; [reflexivity|]. split; [reflexivity|].
  split.
  - eexists g, (rest ++ [_]). split; [reflexivity|]. split; [exact Hg|].
    rewrite links_ok_snoc, Hl. cbn [hash previous_hash andb].
    apply eqb_pair_true. split; reflexivity.
  - cbn [chain all_transactions].
    change (g :: rest ++ [?b]) with ((g :: rest) ++ [b]).
    rewrite map_app, concat_app, <- Hall. cbn. rewrite app_nil_r. reflexivity.
Qed.

(** A row that raises leaves the loop state as it was; a row that builds
    a transaction acts as [push]. *)
Lemma loop_step_push (block_size : Z) (st : loop_state) (row : Row) :
  loop_step rt block_size st row
  = match row_txn rt row with
    | Some txn => push rt block_size st txn
    | None => st
    end.
Proof.
  unfold loop_step, try_body, row_txn, push.
  destruct (Transaction_of_row rt row) as [txn|e]; [|reflexivity].
  destruct (Z.of_nat (length (txn_batch st ++ [txn])) >=? block_size); [|reflexivity].
  destruct (add_block rt (ledger st) (txn_batch st ++ [txn]) (clock st)) as [[l t]|e];
    reflexivity.
Qed.

Lemma fold_loop_step (block_size : Z) (df : list Row) (st : loop_state) :
  fold_left (loop_step rt block_size) df st
  = fold_left (push rt block_size) (valid_txns rt df) st.
Proof.
  revert st. induction df as [|row df IH]; intros st; [reflexivity|].
  cbn [fold_left]. rewrite IH, loop_step_push. unfold valid_txns.
  change (omap (row_txn rt) (row :: df))
    with (match row_txn rt row with
          | Some y => y :: omap (row_txn rt) df
          | None => omap (row_txn rt) df
          end).
  destruct (row_txn rt row); reflexivity.
Qed.

Lemma fold_push_inv (P : loop_state -> list Transaction -> Prop) (block_size : Z) :
  (forall st done x, P st done -> P (push rt block_size st x) (done ++ [x])) ->
  forall xs st done, P st done -> P (fold_left (push rt block_size) xs st) (done ++ xs).
Proof.
  intros Hstep. induction xs as [|x xs IH]; intros st done H.
  - rewrite app_nil_r. exact H.
  - cbn [fold_left]. replace (done ++ x :: xs) with ((done ++ [x]) ++ xs).
    + apply IH, Hstep, H.
    + rewrite <- app_assoc. reflexivity.
Qed.

Lemma push_base (block_size : Z) (st : loop_state) (done : list Transaction)
    (x : Transaction) :
  base_inv st done -> base_inv (push rt block_size st x) (done ++ [x]).
Proof.
  intros [Hwf Hall]. unfold push.
  destruct (Z.of_nat (length (txn_batch st ++ [x])) >=? block_size).
  - destruct (add_block_wf (ledger st) (txn_batch st ++ [x]) (clock st) Hwf)
      as (b & -> & _ & Hwf').
    split; [exact Hwf'|]. cbn [ledger txn_batch all_transactions].
    rewrite app_nil_r, app_assoc, Hall. reflexivity.
  - split; [exact Hwf|]. cbn [ledger txn_batch].
    rewrite app_assoc, Hall. reflexivity.
Qed.

Lemma sizes_snoc (c : list Block) (b : Block) :
  sizes (c ++ [b]) = sizes c ++ [length (transactions b)].
Proof.
  unfold sizes. rewrite map_app. reflexivity.
Qed.

Lemma push_batch (b : nat) (st : loop_state) (done : list Transaction) (x : Transaction) :
  base_inv st done -> batch_inv b st -> batch_inv b (push rt (Z.of_nat b) st x).
Proof.
  intros [Hwf _] [Hlen (q & Hs)]. unfold push.
  rewrite Z.geb_leb, length_app. cbn [length].
  destruct (Z.leb_spec (Z.of_nat b) (Z.of_nat (length (txn_batch st) + 1))) as [Hfull|Hnot].
  - destruct (add_block_wf (ledger st) (txn_batch st ++ [x]) (clock st) Hwf)
      as (nb & -> & Htx & _).
    split; cbn [ledger txn_batch chain length]; [lia|].
    exists (S q). rewrite sizes_snoc, Hs, Htx, length_app. cbn [length].
    replace (length (txn_batch st) + 1)%nat with b by lia.
    cbn [app]. rewrite <- repeat_cons. reflexivity.
  - split; cbn [ledger txn_batch].
    + rewrite length_app. cbn [length]. lia.
    + exists q. exact Hs.
Qed.

Lemma push_unit (block_size : Z) (st : loop_state) (done : list Transaction)
    (x : Transaction) :
  block_size <= 0 ->
  base_inv st done -> unit_inv st -> unit_inv (push rt block_size st x).
Proof.
  intros Hbs [Hwf _] [Hnil (q & Hs)]. unfold push.
  rewrite Z.geb_leb.
  destruct (Z.leb_spec block_size (Z.of_nat (length (txn_batch st ++ [x])))) as [_|Hnot];
    [|lia].
  destruct (add_block_wf (ledger st) (txn_batch st ++ [x]) (clock st) Hwf)
    as (nb & -> & Htx & _).
  split; [reflexivity|]. cbn [ledger chain].
  exists (S q). rewrite sizes_snoc, Hs, Htx, Hnil. cbn [app length].
  rewrite <- repeat_cons. reflexivity.
Qed.

(** The statement after the loop: a pending batch becomes the last block. *)
Lemma final_block (st : loop_state) (done : list Transaction) :
  base_inv st done ->
  exists l,
    match txn_batch st with
    | [] => Ok (ledger st)
    | _ :: _ =>
        let* r := add_block rt (ledger st) (txn_batch st) (clock st) in Ok (fst r)
    end = Ok l
    /\ wf_ledger l
    /\ all_transactions l = done
    /\ sizes (chain l)
       = sizes (chain (ledger st))
           ++ match txn_batch st with [] => [] | _ :: _ => [length (txn_batch st)] end.
Proof.
  intros [Hwf Hall]. destruct (txn_batch st) as [|t batch] eqn:Hb.
  - exists (ledger st). rewrite app_nil_r in Hall |- *.
    split; [reflexivity|]. split; [exact Hwf|]. split; [exact Hall | reflexivity].
  - destruct (add_block_wf (ledger st) (t :: batch) (clock st) Hwf)
      as (nb & -> & Htx & Hwf').
    eexists. split; [reflexivity|]. cbn [fst chain all_transactions].
    split; [exact Hwf'|]. split; [exact Hall|].
    rewrite sizes_snoc, Htx. reflexivity.
Qed.

Lemma process_transactions_at_unfold (tick : nat) (df : list Row) (block_size : Z) :
  exists st0,
    base_inv st0 [] /\ txn_batch st0 = [] /\ sizes (chain (ledger st0)) = [0%nat]
    /\ process_transactions_at rt tick df block_size
       = let st := fold_left (push rt block_size) (valid_txns rt df) st0 in
         match txn_batch st with
         | [] => Ok (ledger st)
         | _ :: _ =>
             let* r := add_block rt (ledger st) (txn_batch st) (clock st) in Ok (fst r)
         end.
Proof.
  destruct (BlockchainLedger_init_wf tick) as (g & Hinit & Hg & Hwf).
  exists {| ledger := {| chain := [g]; all_transactions := [] |};
            txn_batch := []; clock := S tick |}.
  split; [split; [exact Hwf | reflexivity]|].
  split; [reflexivity|]. split; [cbn; rewrite Hg; reflexivity|].
  unfold process_transactions_at. rewrite Hinit, fold_loop_step. reflexivity.
Qed.

(** Whatever the rows and the block size, ingestion returns a well-formed
    ledger that holds the transactions of the valid rows, in order. *)
Lemma process_transactions_at_ok (tick : nat) (df : list Row) (block_size : Z) :
  exists l,
    process_transactions_at rt tick df block_size = Ok l
    /\ wf_ledger l
    /\ all_transactions l = valid_txns rt df.
Proof.
  destruct (process_transactions_at_unfold tick df block_size)
    as (st0 & Hbase & _ & _ & ->).
  pose proof (fold_push_inv base_inv block_size (push_base block_size)
                (valid_txns rt df) st0 [] Hbase) as Hinv.
  cbn [app] in Hinv. cbv zeta.
  destruct (final_block _ _ Hinv) as (l & Hl & Hwf & Hall & _).
  exists l. auto.
Qed.

End IngestionFacts.

Lemma links_ok_hash (rest : list Block) (p b : Block) (k : nat) :
  links_ok p rest = true -> rest !! k = Some b -> hash b = calculate_hash b.
Proof.
  intros Hl Hk. destruct (String.eqb_spec (hash b) (calculate_hash b)) as [H|H]; [exact H|].
  rewrite (links_ok_bad rest p b k Hk H) in Hl. discriminate Hl.
Qed.

Lemma length_concat_sizes (c : list Block) :
  length (concat (map transactions c)) = sum_list (sizes c).
Proof.
  induction c as [|b c IH]; [reflexivity|].
  cbn [map concat sizes sum_list sum_list_with]. rewrite length_app, IH. reflexivity.
Qed.

Lemma sum_list_repeat (b q : nat) : sum_list (repeat b q) = (b * q)%nat.
Proof.
  induction q as [|q IH]; cbn [repeat sum_list sum_list_with].
  - rewrite Nat.mul_0_r. reflexivity.
  - change (sum_list_with id (repeat b q)) with (sum_list (repeat b q)).
    rewrite IH, Nat.mul_succ_r. unfold id. lia.
Qed.

Lemma length_omap_filter (rt : Runtime) (df : list Row) :
  (length (valid_txns rt df) + length (List.filter (malformed rt) df) = length df)%nat.
Proof.
  unfold valid_txns. induction df as [|row df IH]; [reflexivity|].
  change (omap (row_txn rt) (row :: df))
    with (match row_txn rt row with
          | Some y => y :: omap (row_txn rt) df
          | None => omap (row_txn rt) df
          end).
  cbn [List.filter]. unfold row_txn at 1, malformed at 1.
  destruct (Transaction_of_row rt row); cbn [length]; lia.
Qed.

(** With a positive block size the blocks are filled one after the other. *)
Lemma process_transactions_at_sizes (rt : Runtime) (tick : nat) (df : list Row) (b : nat) :
  (0 < b)%nat ->
  exists l,
    process_transactions_at rt tick df (Z.of_nat b) = Ok l
    /\ wf_ledger l
    /\ all_transactions l = valid_txns rt df
    /\ sizes (chain l) = block_sizes b (length (valid_txns rt df)).
Proof.
  intros Hb.
  destruct (process_transactions_at_unfold rt tick df (Z.of_nat b))
    as (st0 & Hbase & Hnil & Hs0 & ->).
  pose proof (fold_push_inv rt (fun st done => base_inv st done /\ batch_inv b st)
                (Z.of_nat b)) as Hfold.
  destruct (Hfold
              (fun st done x H =>
                 conj (push_base rt (Z.of_nat b) st done x (proj1 H))
                      (push_batch rt b st done x (proj1 H) (proj2 H)))
              (valid_txns rt df) st0 [])
    as [Hinv [Hlen (q & Hq)]].
  { split; [exact Hbase|]. split; [rewrite Hnil; exact Hb|].
    exists 0%nat. exact Hs0. }
  cbn [app] in Hinv. cbv zeta.
  set (st := fold_left (push rt (Z.of_nat b)) (valid_txns rt df) st0) in *.
  destruct (final_block rt st _ Hinv) as (l & Hl & Hwf & Hall & Hsz).
  exists l. split; [exact Hl|]. split; [exact Hwf|]. split; [exact Hall|].
  destruct Hinv as [[_ Hcat] Happ].
  assert (Hv : length (valid_txns rt df) = (b * q + length (txn_batch st))%nat).
  { rewrite <- Happ, length_app, Hcat, length_concat_sizes, Hq.
    cbn [sum_list sum_list_with].
    change (sum_list_with id (repeat b q)) with (sum_list (repeat b q)).
    rewrite sum_list_repeat. unfold id. lia. }
  assert (Hdiv : q = (length (valid_txns rt df) / b)%nat)
    by (apply (Nat.div_unique _ b q (length (txn_batch st))); [exact Hlen | exact Hv]).
  assert (Hmod : length (txn_batch st) = (length (valid_txns rt df) mod b)%nat)
    by (apply (Nat.mod_unique _ b q (length (txn_batch st))); [exact Hlen | exact Hv]).
  rewrite Hsz, Hq. unfold block_sizes. rewrite <- Hdiv, <- Hmod.
  destruct (txn_batch st); reflexivity.
Qed.

(** With a block size of zero or less every valid row closes a block. *)
Lemma process_transactions_at_units (rt : Runtime) (tick : nat) (df : list Row)
    (block_size : Z) :
  block_size <= 0 ->
  exists l,
    process_transactions_at rt tick df block_size = Ok l
    /\ wf_ledger l
    /\ all_transactions l = valid_txns rt df
    /\ sizes (chain l) = 0%nat :: repeat 1%nat (length (valid_txns rt df)).
Proof.
  intros Hbs.
  destruct (process_transactions_at_unfold rt tick df block_size)
    as (st0 & Hbase & Hnil & Hs0 & ->).
  pose proof (fold_push_inv rt (fun st done => base_inv st done /\ unit_inv st)
                block_size) as Hfold.
  destruct (Hfold
              (fun st done x H =>
                 conj (push_base rt block_size st done x (proj1 H))
                      (push_unit rt block_size st done x Hbs (proj1 H) (proj2 H)))
              (valid_txns rt df) st0 [])
    as [Hinv [Hempty (q & Hq)]].
  { split; [exact Hbase|]. split; [exact Hnil|]. exists 0%nat. exact Hs0. }
  cbn [app] in Hinv. cbv zeta.
  set (st := fold_left (push rt block_size) (valid_txns rt df) st0) in *.
  destruct (final_block rt st _ Hinv) as (l & Hl & Hwf & Hall & Hsz).
  exists l. split; [exact Hl|]. split; [exact Hwf|]. split; [exact Hall|].
  destruct Hinv as [[_ Hcat] Happ].
  rewrite Hsz, Hempty, app_nil_r, Hq. f_equal. f_equal.
  rewrite <- Happ, Hempty, app_nil_r, Hcat, length_concat_sizes, Hq.
  cbn [sum_list sum_list_with].
  change (sum_list_with id (repeat 1%nat q)) with (sum_list (repeat 1%nat q)).
  rewrite sum_list_repeat. unfold id. lia.
Qed.

(** ** Verification of a freshly built ledger *)

(** C3: [is_chain_valid] returns true on the ledger that
    [process_transactions] has just built, for every sequence of rows (in
    particular those with at least one valid row) and every block size.
    Well-formedness of the chain (every stored hash recomputes and every
    [previous_hash] is the stored hash of the block before) is established
    by the constructor, preserved by [add_block], and implies that
    [is_chain_valid] returns true. *)
Theorem fresh_ledger_verifies (rt : Runtime) :
  (forall df block_size,
      exists l, process_transactions rt df block_size = Ok l /\ is_chain_valid l = true)
  /\ (forall tick, wf_ledger (fst (BlockchainLedger_init rt tick)))
  /\ (forall l txns tick,
         wf_ledger l ->
         exists l' tick', add_block rt l txns tick = Ok (l', tick') /\ wf_ledger l')
  /\ (forall l, wf_ledger l -> is_chain_valid l = true).
Proof.
  split; [|split; [|split]].
  - intros df block_size.
    destruct (process_transactions_at_ok rt 0 df block_size) as (l & Hl & Hwf & _).
    exists l. split; [exact Hl | apply wf_ledger_valid, Hwf].
  - intros tick. destruct (BlockchainLedger_init_wf rt tick) as (g & -> & _ & Hwf).
    exact Hwf.
  - intros l txns tick Hwf.
    destruct (add_block_wf rt l txns tick Hwf) as (b & Hb & _ & Hwf').
    eexists _, _. split; [exact Hb | exact Hwf'].
  - exact wf_ledger_valid.
Qed.

Lemma fresh_ledger_verifies_witness :
  is_chain_valid Demo.built = true
  /\ exists l' tick', add_block Demo.rt Demo.fresh [Demo.txn Demo.tenth] 1 = Ok (l', tick')
                      /\ wf_ledger l'.
Proof.
  destruct (fresh_ledger_verifies Demo.rt) as (Hbuilt & Hinit & Hadd & Hvalid).
  split.
  - destruct (Hbuilt [Demo.good_row; Demo.good_row; Demo.good_row] 2) as (l & Hl & Hv).
    unfold Demo.built. rewrite Hl. exact Hv.
  - exact (Hadd Demo.fresh [Demo.txn Demo.tenth] 1%nat (Hinit 0%nat)).
Defined.

(** ** Tampering with a transaction *)

(** C2: in a ledger built by [process_transactions], assigning to any
    field of any transaction of any block after the genesis block, all
    stored hashes left as they are, makes [is_chain_valid] return false,
    provided the text of the block has changed and SHA-256 does not send
    the old and the new text to the same digest. *)
Theorem tampering_detected (rt : Runtime) (df : list Row) (block_size : Z)
    (l : BlockchainLedger) (i j : nat) (upd : field_update) (b : Block) (t : Transaction) :
  process_transactions rt df block_size = Ok l ->
  (1 <= i)%nat ->
  chain l !! i = Some b ->
  transactions b !! j = Some t ->
  let b' := set_transactions (<[j := set_field upd t]> (transactions b)) b in
  block_text b' <> block_text b ->
  (sha256_hexdigest (block_text b') = sha256_hexdigest (block_text b) ->
   block_text b' = block_text b) ->
  is_chain_valid (tamper i j upd l) = false.
Proof.
  intros Hl Hi Hb Ht b' Hdiff Hinj.
  destruct (process_transactions_at_ok rt 0 df block_size) as (l0 & Hl0 & Hwf & _).
  unfold process_transactions in Hl. rewrite Hl0 in Hl. injection Hl as ->.
  destruct Hwf as [(g & rest & Hc & _ & Hlinks) _].
  unfold tamper. rewrite Hb, Ht. fold b'.
  destruct i as [|k]; [lia|].
  rewrite Hc in Hb |- *. cbn in Hb.
  change (<[S k := b']> (g :: rest)) with (g :: <[k := b']> rest).
  rewrite is_chain_valid_cons.
  apply (links_ok_bad _ g b' k).
  - apply list_lookup_insert_eq. apply (lookup_lt_Some _ _ _ Hb).
  - pose proof (links_ok_hash rest g b k Hlinks Hb) as Hstored.
    change (hash b') with (hash b). rewrite Hstored.
    intros Heq. apply Hdiff, Hinj. symmetry. exact Heq.
Qed.

Lemma tampering_detected_witness :
  is_chain_valid (tamper 1 1 (Set_amount (PyFloat Demo.tenth)) Demo.built) = false.
Proof.
  eapply (tampering_detected Demo.rt [Demo.good_row; Demo.good_row; Demo.good_row] 2
            Demo.built 1 1 (Set_amount (PyFloat Demo.tenth))).
  - vm_compute. reflexivity.
  - lia.
  - vm_compute. reflexivity.
  - vm_compute. reflexivity.
  - intros H. vm_compute in H. discriminate H.
  - intros H. vm_compute in H. discriminate H.
Defined.

(** ** Appending an empty batch *)

(** C4 (as amended): [add_block] with an empty batch leaves
    [all_transactions] and the blocks already in the chain as they are, but
    appends one block with no transactions, so the chain grows by one. (It
    raises, changing nothing, only on a chain with no block at all.) *)
Theorem add_block_empty (rt : Runtime) (l : BlockchainLedger) (tick : nat) :
  match add_block rt l [] tick with
  | Ok (l', tick') =>
      length (chain l') = S (length (chain l))
      /\ take (length (chain l)) (chain l') = chain l
      /\ (exists b, last (chain l') = Some b /\ transactions b = [])
      /\ all_transactions l' = all_transactions l
      /\ tick' = S tick
  | Raise _ => chain l = []
  end.
Proof.
  unfold add_block, get_latest_block.
  destruct (last (chain l)) as [latest|] eqn:Hlast.
  - cbn [bind Block_init chain all_transactions].
    rewrite length_app, take_app_length, app_nil_r, last_snoc. cbn [length].
    split; [lia|]. split; [reflexivity|]. split; [|split; reflexivity].
    eexists. split; reflexivity.
  - cbn [bind]. apply last_None, Hlast.
Qed.

(** C4 (as stated) fails: on the ledger the constructor returns, appending
    the empty batch takes the chain from one block to two. *)
Lemma empty_batch_grows_chain :
  length (chain Demo.fresh) = 1%nat
  /\ exists l' tick', add_block Demo.rt Demo.fresh [] 1 = Ok (l', tick')
                      /\ length (chain l') = 2%nat
                      /\ chain l' <> chain Demo.fresh.
Proof.
  split; [reflexivity|].
  eexists _, _. split; [reflexivity|]. split; [reflexivity|].
  intros H. apply (f_equal (@length Block)) in H. cbn in H. discriminate H.
Qed.

(** ** Batching *)

Lemma ceil_div_nat (v b : nat) :
  (0 < b)%nat ->
  (Z.of_nat v + Z.of_nat b - 1) / Z.of_nat b
  = Z.of_nat (v / b) + (if (v mod b =? 0)%nat then 0 else 1).
Proof.
  intros Hb.
  pose proof (Nat.div_mod_eq v b) as Hv.
  pose proof (Nat.mod_upper_bound v b ltac:(lia)) as Hr.
  apply (f_equal Z.of_nat) in Hv. rewrite Nat2Z.inj_add, Nat2Z.inj_mul in Hv.
  symmetry. destruct (Nat.eqb_spec (v mod b) 0) as [H0|H0].
  - apply (Z.div_unique _ _ _ (Z.of_nat b - 1)); [lia|]. rewrite H0 in Hv. lia.
  - apply (Z.div_unique _ _ _ (Z.of_nat (v mod b) - 1)); [lia|]. lia.
Qed.

Lemma length_block_sizes (b v : nat) :
  length (block_sizes b v) = (1 + v / b + (if (v mod b =? 0)%nat then 0 else 1))%nat.
Proof.
  unfold block_sizes. cbn [length]. rewrite length_app, repeat_length.
  destruct (v mod b =? 0)%nat; cbn [length]; lia.
Qed.

Lemma last_block_sizes (b v : nat) :
  (0 < b)%nat -> (0 < v)%nat ->
  last (block_sizes b v) = Some (if (v mod b =? 0)%nat then b else (v mod b)%nat).
Proof.
  intros Hb Hv. unfold block_sizes.
  destruct (Nat.eqb_spec (v mod b) 0) as [H0|H0].
  - pose proof (Nat.div_mod_eq v b) as Hdm. rewrite H0 in Hdm.
    destruct (v / b)%nat as [|q]; [lia|].
    rewrite app_nil_r. cbn [repeat]. rewrite repeat_cons.
    change (0%nat :: repeat b q ++ [b]) with ((0%nat :: repeat b q) ++ [b]).
    apply last_snoc.
  - change (0%nat :: repeat b (v / b) ++ [(v mod b)%nat])
      with ((0%nat :: repeat b (v / b)) ++ [(v mod b)%nat]).
    apply last_snoc.
Qed.

(** C6: with [v > 0] valid rows and a positive block size [b], the chain
    has the genesis block and [ceil (v / b)] more; the last block holds
    [v mod b] transactions, or [b] when [b] divides [v]; the blocks, read
    in order, hold exactly the transactions of the valid rows, each once;
    and 250 valid rows with blocks of 100 give sizes 0, 100, 100, 50. *)
Theorem batching (rt : Runtime) (df : list Row) (block_size : Z) :
  let v := length (valid_txns rt df) in
  let b := Z.to_nat block_size in
  0 < block_size ->
  (0 < v)%nat ->
  exists l,
    process_transactions rt df block_size = Ok l
    /\ Z.of_nat (length (chain l)) = 1 + (Z.of_nat v + block_size - 1) / block_size
    /\ last (sizes (chain l)) = Some (if (v mod b =? 0)%nat then b else (v mod b)%nat)
    /\ concat (map transactions (chain l)) = valid_txns rt df
    /\ sizes (chain l) = block_sizes b v
    /\ (v = 250%nat -> block_size = 100 -> sizes (chain l) = [0; 100; 100; 50]%nat).
Proof.
  intros v b Hbs Hv.
  assert (Hb : (0 < b)%nat) by (unfold b; lia).
  assert (Hzb : block_size = Z.of_nat b) by (unfold b; lia).
  destruct (process_transactions_at_sizes rt 0 df b Hb) as (l & Hl & Hwf & Hall & Hsz).
  fold v in Hsz. exists l.
  split; [unfold process_transactions; rewrite Hzb; exact Hl|].
  split.
  { replace (length (chain l)) with (length (sizes (chain l)))
      by (unfold sizes; apply length_map).
    rewrite Hsz, length_block_sizes, Hzb, (ceil_div_nat v b Hb).
    destruct (v mod b =? 0)%nat; lia. }
  split; [rewrite Hsz; apply last_block_sizes; assumption|].
  split; [destruct Hwf as [_ <-]; exact Hall|].
  split; [exact Hsz|].
  intros H250 H100. rewrite Hsz, H250. unfold b. rewrite H100. reflexivity.
Qed.

Lemma batching_witness :
  exists l,
    process_transactions Demo.rt [Demo.good_row; Demo.bad_amount_row; Demo.good_row;
                                  Demo.good_row] 2 = Ok l
    /\ Z.of_nat (length (chain l)) = 3
    /\ last (sizes (chain l)) = Some 1%nat
    /\ sizes (chain l) = [0; 2; 1]%nat.
Proof.
  destruct (batching Demo.rt
              [Demo.good_row; Demo.bad_amount_row; Demo.good_row; Demo.good_row] 2)
    as (l & Hl & Hlen & Hlast & _ & Hsz & _).
  - lia.
  - vm_compute. lia.
  - exists l. split; [exact Hl|]. split; [exact Hlen|]. split; [exact Hlast | exact Hsz].
Defined.

(** The scenario of C6 run on the model: 250 valid rows, blocks of 100. *)
Lemma scenario_250_rows :
  exists l,
    process_transactions Demo.rt (repeat Demo.good_row 250) 100 = Ok l
    /\ sizes (chain l) = [0; 100; 100; 50]%nat
    /\ length (all_transactions l) = 250%nat
    /\ is_chain_valid l = true.
Proof.
  eexists. split; [vm_compute; reflexivity|].
  split; [|split]; vm_compute; reflexivity.
Qed.

(** ** Block sizes that are not positive *)

(** C7 (as amended): with a block size of zero or less,
    [process_transactions] does not fail: it returns a ledger in which
    every valid row has closed a block of its own. *)
Theorem nonpositive_block_size (rt : Runtime) (df : list Row) (block_size : Z) :
  block_size <= 0 ->
  exists l,
    process_transactions rt df block_size = Ok l
    /\ sizes (chain l) = 0%nat :: repeat 1%nat (length (valid_txns rt df))
    /\ all_transactions l = valid_txns rt df.
Proof.
  intros Hbs.
  destruct (process_transactions_at_units rt 0 df block_size Hbs)
    as (l & Hl & _ & Hall & Hsz).
  exists l. split; [exact Hl|]. split; [exact Hsz | exact Hall].
Qed.

Lemma nonpositive_block_size_witness :
  exists l,
    process_transactions Demo.rt [Demo.good_row; Demo.good_row] (-3) = Ok l
    /\ sizes (chain l) = [0; 1; 1]%nat.
Proof.
  destruct (nonpositive_block_size Demo.rt [Demo.good_row; Demo.good_row] (-3))
    as (l & Hl & Hsz & _); [lia|].
  exists l. split; [exact Hl | exact Hsz].
Defined.

(** C7 (as stated) fails: with block size 0 ingestion raises nothing and
    returns a ledger of three blocks. *)
Lemma zero_block_size_is_accepted :
  exists l,
    process_transactions Demo.rt [Demo.good_row; Demo.good_row] 0 = Ok l
    /\ length (chain l) = 3%nat
    /\ forall e, process_transactions Demo.rt [Demo.good_row; Demo.good_row] 0 <> Raise e.
Proof.
  eexists. split; [vm_compute; reflexivity|].
  split; [vm_compute; reflexivity|].
  intros e H. vm_compute in H. discriminate H.
Qed.

(** ** Malformed rows *)

(** C8: whatever the rows and the block size, [process_transactions]
    returns a ledger (no exception leaves it) whose transactions are those
    of the rows on which [Transaction(...)] could be built, one per such
    row and in row order; the rows on which it raised are the only ones
    missing, so one malformed row leaves one transaction fewer than rows. *)
Theorem malformed_rows_skipped (rt : Runtime) (df : list Row) (block_size : Z) :
  exists l,
    process_transactions rt df block_size = Ok l
    /\ all_transactions l = valid_txns rt df
    /\ concat (map transactions (chain l)) = valid_txns rt df
    /\ length (all_transactions l)
       = (length df - length (List.filter (malformed rt) df))%nat
    /\ (length (List.filter (malformed rt) df) = 1%nat ->
        length (all_transactions l) = (length df - 1)%nat).
Proof.
  destruct (process_transactions_at_ok rt 0 df block_size) as (l & Hl & Hwf & Hall).
  exists l. split; [exact Hl|]. split; [exact Hall|].
  split; [destruct Hwf as [_ <-]; exact Hall|].
  pose proof (length_omap_filter rt df) as Hcount. rewrite Hall.
  split; [lia | intros H1; lia].
Qed.

Lemma malformed_rows_skipped_witness :
  malformed Demo.rt Demo.bad_amount_row = true
  /\ exists l,
       process_transactions Demo.rt
         [Demo.good_row; Demo.good_row; Demo.good_row; Demo.good_row;
          Demo.bad_amount_row; Demo.good_row] 100 = Ok l
       /\ length (all_transactions l) = 5%nat.
Proof.
  split; [vm_compute; reflexivity|].
  destruct (malformed_rows_skipped Demo.rt
              [Demo.good_row; Demo.good_row; Demo.good_row; Demo.good_row;
               Demo.bad_amount_row; Demo.good_row] 100)
    as (l & Hl & _ & _ & _ & Hone).
  exists l. split; [exact Hl|]. apply Hone. vm_compute. reflexivity.
Defined.

(** ** The genesis block *)

(** C9: [is_chain_valid] reads nothing of the genesis block but its stored
    hash, against which the [previous_hash] of block 1 is compared: its
    digest is never recomputed. Putting in its place any block with the
    same stored hash (other transactions, timestamp, index or previous
    hash) leaves the result as it was, and on a ledger built by
    [process_transactions] the result is still true. *)
Theorem genesis_fields_unchecked (rt : Runtime) :
  (forall l g g',
      chain l !! 0%nat = Some g -> hash g' = hash g ->
      is_chain_valid (set_genesis g' l) = is_chain_valid l)
  /\ (forall df block_size l g g',
         process_transactions rt df block_size = Ok l ->
         chain l !! 0%nat = Some g -> hash g' = hash g ->
         is_chain_valid (set_genesis g' l) = true).
Proof.
  assert (Hsame : forall l g g',
             chain l !! 0%nat = Some g -> hash g' = hash g ->
             is_chain_valid (set_genesis g' l) = is_chain_valid l).
  { intros [[|g0 rest] txns] g g' Hg Hh; [discriminate|].
    cbn in Hg. injection Hg as ->.
    unfold set_genesis. cbn [chain all_transactions].
    change (<[0%nat := g']> (g :: rest)) with (g' :: rest).
    rewrite !is_chain_valid_cons. apply links_ok_head, Hh. }
  split; [exact Hsame|].
  intros df block_size l g g' Hl Hg Hh. rewrite (Hsame l g g' Hg Hh).
  destruct (process_transactions_at_ok rt 0 df block_size) as (l0 & Hl0 & Hwf & _).
  unfold process_transactions in Hl. rewrite Hl0 in Hl. injection Hl as ->.
  apply wf_ledger_valid, Hwf.
Qed.

Lemma genesis_fields_unchecked_witness :
  transactions Demo.forged_genesis = [Demo.txn Demo.hundred]
  /\ hash Demo.forged_genesis <> calculate_hash Demo.forged_genesis
  /\ is_chain_valid Demo.forged = true.
Proof.
  split; [vm_compute; reflexivity|]. split.
  - intros H. vm_compute in H. discriminate H.
  - apply (proj2 (genesis_fields_unchecked Demo.rt)
             [Demo.good_row; Demo.good_row; Demo.good_row] 2 Demo.built
             (default Demo.forged_genesis (head (chain Demo.built))) Demo.forged_genesis).
    + vm_compute. reflexivity.
    + vm_compute. reflexivity.
    + vm_compute. reflexivity.
Defined.

(** ** The flag of a transaction *)

Lemma Transaction_of_row_flag (rt : Runtime) (row : Row) (t : Transaction) :
  Transaction_of_row rt row = Ok t ->
  exists v n,
    row !! "Is_laundering" = Some v /\ py_int rt v = Ok n
    /\ is_laundering t = negb (n =? 0).
Proof.
  unfold Transaction_of_row, row_get.
  destruct (row !! "Sender_account"); [|discriminate].
  destruct (row !! "Receiver_account"); [|discriminate].
  destruct (row !! "Amount") as [a|]; [|discriminate].
  cbn [bind]. destruct (py_float rt a); [|discriminate].
  destruct (row !! "Payment_currency"); [|discriminate].
  destruct (row !! "Is_laundering") as [v|]; [|discriminate].
  cbn [bind]. destruct (py_int rt v) as [n|] eqn:Hn; [|discriminate].
  destruct (row !! "Payment_type"); [|discriminate].
  cbn [bind]. intros H. injection H as <-.
  exists v, n. split; [reflexivity|]. split; [exact Hn | reflexivity].
Qed.

Lemma Transaction_of_row_iff (rt : Runtime) (row : Row) (t : Transaction) :
  Transaction_of_row rt row = Ok t <->
  exists s r a x c v n p,
    row !! "Sender_account" = Some s /\ row !! "Receiver_account" = Some r
    /\ row !! "Amount" = Some a /\ py_float rt a = Ok x
    /\ row !! "Payment_currency" = Some c
    /\ row !! "Is_laundering" = Some v /\ py_int rt v = Ok n
    /\ row !! "Payment_type" = Some p
    /\ t = {| sender := s; receiver := r; amount := PyFloat x; currency := c;
              is_laundering := negb (n =? 0); payment_type := p |}.
Proof.
  unfold Transaction_of_row, row_get. split.
  - destruct (row !! "Sender_account") as [s|]; [|discriminate].
    destruct (row !! "Receiver_account") as [r|]; [|discriminate].
    destruct (row !! "Amount") as [a|]; [|discriminate].
    cbn [bind]. destruct (py_float rt a) as [x|] eqn:Hx; [|discriminate].
    destruct (row !! "Payment_currency") as [c|]; [|discriminate].
    destruct (row !! "Is_laundering") as [v|]; [|discriminate].
    cbn [bind]. destruct (py_int rt v) as [n|] eqn:Hn; [|discriminate].
    destruct (row !! "Payment_type") as [p|]; [|discriminate].
    cbn [bind]. intros H. injection H as <-.
    exists s, r, a, x, c, v, n, p. repeat split; assumption.
  - intros (s & r & a & x & c & v & n & p & -> & -> & -> & Hx & -> & -> & Hn & -> & ->).
    cbn [bind]. rewrite Hx. cbn [bind]. rewrite Hn. reflexivity.
Qed.

(** C10: [Transaction.__init__] rejects no flag value: it stores [bool] of
    whatever it is given, which is true for a nonzero number and for a
    non-empty string and false for 0, the empty string and [None]. In
    [process_transactions] a flag is rejected only by the [int(...)]
    applied to the raw field: a row is taken in exactly when its six
    columns are present, [float] accepts the amount and [int] accepts the
    flag, so a row whose other fields are good is skipped exactly when
    [int] raises on its flag; the flag stored is then whether that integer
    is nonzero. *)
Theorem flag_coercion (rt : Runtime) :
  (forall s r a c v p, is_laundering (Transaction_init s r a c v p) = py_bool v)
  /\ (forall n, n <> 0 -> py_bool (PyInt n) = true)
  /\ (forall x, (forall sg, x <> S754_zero sg) -> py_bool (PyFloat x) = true)
  /\ (forall s, s <> "" -> py_bool (PyStr s) = true)
  /\ py_bool (PyInt 0) = false
  /\ py_bool (PyStr "") = false
  /\ py_bool PyNone = false
  /\ (forall row v e,
         row !! "Is_laundering" = Some v -> py_int rt v = Raise e ->
         malformed rt row = true)
  /\ (forall row t,
         Transaction_of_row rt row = Ok t ->
         exists v n,
           row !! "Is_laundering" = Some v /\ py_int rt v = Ok n
           /\ is_laundering t = negb (n =? 0))
  /\ (forall row s r a x c v p,
         row !! "Sender_account" = Some s -> row !! "Receiver_account" = Some r ->
         row !! "Amount" = Some a -> py_float rt a = Ok x ->
         row !! "Payment_currency" = Some c -> row !! "Payment_type" = Some p ->
         row !! "Is_laundering" = Some v ->
         (malformed rt row = true <-> exists e, py_int rt v = Raise e)
         /\ forall n,
              py_int rt v = Ok n ->
              Transaction_of_row rt row
              = Ok {| sender := s; receiver := r; amount := PyFloat x; currency := c;
                      is_laundering := negb (n =? 0); payment_type := p |}).
Proof.
  split; [reflexivity|].
  split; [intros n Hn; cbn; apply negb_true_iff, Z.eqb_neq, Hn|].
  split.
  { intros x Hx. destruct x as [sg| | |]; try reflexivity. destruct (Hx sg eq_refl). }
  split; [intros s Hs; cbn; apply negb_true_iff, String.eqb_neq, Hs|].
  split; [reflexivity|]. split; [reflexivity|]. split; [reflexivity|].
  split.
  { intros row v e Hv He. unfold malformed.
    destruct (Transaction_of_row rt row) as [t|] eqn:Ht; [|reflexivity].
    destruct (Transaction_of_row_flag rt row t Ht) as (v' & n & Hv' & Hn & _).
    rewrite Hv in Hv'. injection Hv' as <-. rewrite He in Hn. discriminate Hn. }
  split; [apply Transaction_of_row_flag|].
  intros row s r a x c v p Hs Hr Ha Hx Hc Hp Hv.
  assert (Hok : forall n, py_int rt v = Ok n ->
            Transaction_of_row rt row
            = Ok {| sender := s; receiver := r; amount := PyFloat x; currency := c;
                    is_laundering := negb (n =? 0); payment_type := p |}).
  { intros n Hn. apply Transaction_of_row_iff.
    exists s, r, a, x, c, v, n, p. repeat split; assumption. }
  split; [|exact Hok].
  unfold malformed. destruct (py_int rt v) as [n|e] eqn:Hn.
  - rewrite (Hok n eq_refl). split; [discriminate | intros [e He]; discriminate He].
  - destruct (Transaction_of_row rt row) as [t|e'] eqn:Ht.
    + apply Transaction_of_row_iff in Ht
        as (_ & _ & _ & _ & _ & v' & n' & _ & _ & _ & _ & _ & _ & Hv' & Hn' & _).
      rewrite Hv in Hv'. injection Hv' as <-. rewrite Hn in Hn'. discriminate Hn'.
    + split; [intros _; exists e; reflexivity | reflexivity].
Qed.

Lemma flag_coercion_witness :
  py_bool (PyStr "0") = true
  /\ is_laundering
       (Transaction_init (PyInt 1001) (PyInt 2002) (PyFloat Demo.tenth) (PyStr "USD")
                         (PyStr "maybe") (PyStr "Wire")) = true
  /\ malformed Demo.rt Demo.bad_flag_row = true
  /\ malformed Demo.rt (Demo.row (PyStr "100.5") (PyStr "0")) = false
  /\ Transaction_of_row Demo.rt (Demo.row (PyFloat Demo.tenth) (PyStr "0"))
     = Ok (Demo.txn Demo.tenth)
  /\ Transaction_of_row Demo.rt (Demo.row (PyFloat Demo.tenth) (PyInt (-2)))
     = Ok (set_field (Set_is_laundering true) (Demo.txn Demo.tenth)).
Proof.
  destruct (flag_coercion Demo.rt)
    as (Hinit & _ & _ & Hstr & _ & _ & _ & Hskip & _ & Honly).
  split; [apply Hstr; discriminate|].
  split; [rewrite Hinit; apply Hstr; discriminate|].
  split.
  { apply (Hskip Demo.bad_flag_row (PyStr "maybe") ValueError); vm_compute; reflexivity. }
  split.
  { assert (Hrow := Honly (Demo.row (PyStr "100.5") (PyStr "0")) (PyInt 1001) (PyInt 2002)
                (PyStr "100.5") (float_of_decimal false 1005 (-1)) (PyStr "USD")
                (PyStr "0") (PyStr "Wire")).
    destruct Hrow as [Hiff _]; [vm_compute; reflexivity ..|].
    destruct (malformed Demo.rt (Demo.row (PyStr "100.5") (PyStr "0"))); [|reflexivity].
    destruct (proj1 Hiff eq_refl) as [e He]. vm_compute in He. discriminate He. }
  split.
  { assert (Hrow := Honly (Demo.row (PyFloat Demo.tenth) (PyStr "0")) (PyInt 1001)
                (PyInt 2002) (PyFloat Demo.tenth) Demo.tenth (PyStr "USD") (PyStr "0")
                (PyStr "Wire")).
    destruct Hrow as [_ Hok]; [vm_compute; reflexivity ..|].
    apply (Hok 0). vm_compute. reflexivity. }
  assert (Hrow := Honly (Demo.row (PyFloat Demo.tenth) (PyInt (-2))) (PyInt 1001)
              (PyInt 2002) (PyFloat Demo.tenth) Demo.tenth (PyStr "USD") (PyInt (-2))
              (PyStr "Wire")).
  destruct Hrow as [_ Hok]; [vm_compute; reflexivity ..|].
  apply (Hok (-2)). reflexivity.
Defined.

(** ** The digest *)

Lemma append_empty_r (s : string) : s +:+ "" = s.
Proof.
  induction s as [|c s IH]; [reflexivity|].
  change (String c (s +:+ "") = String c s). rewrite IH. reflexivity.
Qed.

Lemma append_assoc (a b c : string) : (a +:+ b) +:+ c = a +:+ (b +:+ c).
Proof.
  induction a as [|x a IH]; [reflexivity|].
  change (String x ((a +:+ b) +:+ c) = String x (a +:+ (b +:+ c))).
  rewrite IH. reflexivity.
Qed.

Lemma Transaction_str_canonical (t : Transaction) : Transaction_str t = canonical_form t.
Proof.
  unfold Transaction_str, canonical_form, status_marker. cbn [fold_right].
  rewrite append_empty_r. reflexivity.
Qed.

(** ["".join(parts)] followed by [tail] is the parts and [tail] appended
    one after the other. *)
Lemma join_fold (parts : list string) (tail : string) :
  String.concat "" parts +:+ tail = fold_right String.append "" (parts ++ [tail]).
Proof.
  induction parts as [|x parts IH].
  - cbn. rewrite append_empty_r. reflexivity.
  - cbn [app fold_right]. rewrite <- IH.
    destruct parts as [|y parts].
    + reflexivity.
    + cbn [String.concat]. rewrite append_assoc. reflexivity.
Qed.

(** C5 (as stated) fails in its last part: the amounts 100.0 and 0.125
    appear with one and with three digits after the point, so the precision
    is not fixed, and the amount 0.1 appears as "0.1", which is not the
    exact value of that float (the raw amount 0.10000000000000001 is read
    as the same float and so appears as "0.1" too). *)
Lemma amount_text_neither_fixed_nor_exact :
  Transaction_str (Demo.txn Demo.hundred) = "1001 → 2002 | 100.0 USD | Wire | ✅ Normal"
  /\ Transaction_str (Demo.txn Demo.eighth) = "1001 → 2002 | 0.125 USD | Wire | ✅ Normal"
  /\ Transaction_str (Demo.txn Demo.tenth) = "1001 → 2002 | 0.1 USD | Wire | ✅ Normal"
  /\ denotes_exactly "0.1" Demo.tenth = false
  /\ Text.parse_float "0.10000000000000001" = Some Demo.tenth
  /\ ~ (amount_fixed_precision \/ amount_exact_decimal).
Proof.
  split; [vm_compute; reflexivity|].
  split; [vm_compute; reflexivity|].
  split; [vm_compute; reflexivity|].
  split; [vm_compute; reflexivity|].
  split; [vm_compute; reflexivity|].
  intros [[p Hfix] | Hexact].
  - pose proof (Hfix Demo.hundred eq_refl) as H1.
    pose proof (Hfix Demo.eighth eq_refl) as H3.
    vm_compute in H1, H3. congruence.
  - pose proof (Hexact Demo.tenth eq_refl) as H. vm_compute in H. discriminate H.
Qed.

(** * Further properties of the ledger *)

(** ** Invariants of ingestion *)

Lemma process_transactions_at_fold (rt : Runtime) (tick : nat) (df : list Row)
    (block_size : Z) :
  process_transactions_at rt tick df block_size
  = let st := fold_left (push rt block_size) (valid_txns rt df)
                {| ledger := fst (BlockchainLedger_init rt tick);
                   txn_batch := [];
                   clock := snd (BlockchainLedger_init rt tick) |} in
    match txn_batch st with
    | [] => Ok (ledger st)
    | _ :: _ =>
        let* r := add_block rt (ledger st) (txn_batch st) (clock st) in Ok (fst r)
    end.
Proof.
  unfold process_transactions_at.
  destruct (BlockchainLedger_init rt tick) as [l0 t]. rewrite fold_loop_step. reflexivity.
Qed.

(** Whatever holds of the new ledger and is kept by every [add_block] of a
    non-empty batch holds of the ledger that ingestion returns. *)
Lemma process_transactions_at_inv (rt : Runtime) (tick : nat)
    (I : BlockchainLedger -> nat -> Prop) (df : list Row) (block_size : Z) :
  I (fst (BlockchainLedger_init rt tick)) (snd (BlockchainLedger_init rt tick)) ->
  (forall l txns t l' t',
      I l t -> txns <> [] -> add_block rt l txns t = Ok (l', t') -> I l' t') ->
  exists l t, process_transactions_at rt tick df block_size = Ok l /\ I l t.
Proof.
  intros Hinit Hadd. rewrite process_transactions_at_fold. cbv zeta.
  set (st0 := {| ledger := fst (BlockchainLedger_init rt tick); txn_batch := [];
                 clock := snd (BlockchainLedger_init rt tick) |}).
  assert (H0 : base_inv st0 [] /\ I (ledger st0) (clock st0)).
  { destruct (BlockchainLedger_init_wf rt tick) as (g & Hg & _ & Hwf).
    subst st0. rewrite Hg in *. cbn [fst snd] in *.
    split; [split; [exact Hwf | reflexivity] | exact Hinit]. }
  pose proof (fold_push_inv rt
                (fun st done => base_inv st done /\ I (ledger st) (clock st)) block_size)
    as Hfold.
  destruct (Hfold) with (xs := valid_txns rt df) (st := st0) (done := @nil Transaction)
    as [Hbase HI]; [|exact H0|].
  { intros st done x [Hb Hi]. split; [apply push_base, Hb|].
    unfold push.
    destruct (Z.of_nat (length (txn_batch st ++ [x])) >=? block_size); [|exact Hi].
    destruct (add_block_wf rt (ledger st) (txn_batch st ++ [x]) (clock st) (proj1 Hb))
      as (nb & Hnb & _ & _).
    rewrite Hnb. cbn [ledger clock].
    apply (Hadd _ _ _ _ _ Hi) in Hnb; [exact Hnb|].
    destruct (txn_batch st); discriminate. }
  set (st := fold_left (push rt block_size) (valid_txns rt df) st0) in *.
  destruct (txn_batch st) as [|x batch] eqn:Hbatch.
  - exists (ledger st), (clock st). split; [reflexivity | exact HI].
  - destruct (add_block_wf rt (ledger st) (x :: batch) (clock st) (proj1 Hbase))
      as (nb & Hnb & _ & _).
    rewrite Hnb. cbn [bind fst]. eexists _, _. split; [reflexivity|].
    apply (Hadd _ _ _ _ _ HI) in Hnb; [exact Hnb | discriminate].
Qed.

Lemma add_block_inversion (rt : Runtime) (l l' : BlockchainLedger)
    (txns : list Transaction) (t t' : nat) :
  add_block rt l txns t = Ok (l', t') ->
  exists latest,
    last (chain l) = Some latest
    /\ t' = S t
    /\ all_transactions l' = all_transactions l ++ txns
    /\ chain l'
       = chain l
           ++ [{| index := Z.of_nat (length (chain l));
                  timestamp := time_time rt t;
                  transactions := txns;
                  previous_hash := hash latest;
                  hash := sha256_hexdigest
                            (block_string (Z.of_nat (length (chain l))) (time_time rt t)
                                          txns (hash latest)) |}].
Proof.
  unfold add_block, get_latest_block.
  destruct (last (chain l)) as [latest|]; [|discriminate].
  cbn [bind Block_init]. intros H. injection H as <- <-.
  exists latest. repeat split.
Qed.

Lemma shaped_add_block (rt : Runtime) (t0 : nat) (l l' : BlockchainLedger)
    (txns : list Transaction) (t t' : nat) :
  shaped rt t0 l t -> add_block rt l txns t = Ok (l', t') -> shaped rt t0 l' t'.
Proof.
  intros [Ht Hsh] Hadd.
  destruct (add_block_inversion rt l l' txns t t' Hadd) as (latest & _ & -> & _ & Hc).
  unfold shaped. rewrite Hc. split.
  - rewrite length_app. cbn [length]. lia.
  - intros i b Hi. apply lookup_app_Some in Hi as [Hi'|[Hge Hi']].
    + exact (Hsh i b Hi').
    + destruct (i - length (chain l))%nat as [|k] eqn:Hk; [|destruct k; discriminate].
      cbn in Hi'. injection Hi' as <-. cbn [index timestamp].
      replace i with (length (chain l)) by lia. split; [reflexivity|].
      f_equal. lia.
Qed.

Lemma genesis_first_add_block (rt : Runtime) (l l' : BlockchainLedger)
    (txns : list Transaction) (t t' : nat) :
  genesis_first l -> txns <> [] -> add_block rt l txns t = Ok (l', t') -> genesis_first l'.
Proof.
  intros [(g & Hg & Hgt & Hgp) Hne] Htx Hadd.
  destruct (add_block_inversion rt l l' txns t t' Hadd) as (latest & _ & _ & _ & Hc).
  unfold genesis_first. rewrite Hc. split.
  - exists g. split; [|split; assumption].
    apply lookup_app_l_Some, Hg.
  - intros i b Hi. apply lookup_app_Some in Hi as [Hi'|[Hge Hi']].
    + exact (Hne i b Hi').
    + destruct (S i - length (chain l))%nat as [|k]; [|destruct k; discriminate].
      cbn in Hi'. injection Hi' as <-. exact Htx.
Qed.

Lemma built_block_facts (rt : Runtime) (df : list Row) (block_size : Z)
    (l : BlockchainLedger) (i : nat) (b : Block) :
  process_transactions rt df block_size = Ok l ->
  chain l !! i = Some b ->
  index b = Z.of_nat i
  /\ timestamp b = time_time rt i
  /\ hash b = calculate_hash b
  /\ forall p, chain l !! (i - 1)%nat = Some p -> (0 < i)%nat -> previous_hash b = hash p.
Proof.
  intros Hl Hb. unfold process_transactions in Hl.
  destruct (process_transactions_at_inv rt 0 (shaped rt 0) df block_size)
    as (l1 & t & Hl1 & _ & Hsh).
  { split; [reflexivity|]. intros [|k] g Hk; [|discriminate].
    cbn in Hk. injection Hk as <-. split; reflexivity. }
  { intros l0 txns t0 l' t' Hs _ Hadd. exact (shaped_add_block rt 0 l0 l' txns t0 t' Hs Hadd). }
  rewrite Hl1 in Hl. injection Hl as ->.
  destruct (Hsh i b Hb) as [Hidx Hts].
  split; [exact Hidx|]. split; [exact Hts|].
  destruct (process_transactions_at_ok rt 0 df block_size) as (l2 & Hl2 & Hwf & _).
  rewrite Hl1 in Hl2. injection Hl2 as <-.
  destruct Hwf as [(g & rest & Hc & Hg & Hlinks) _].
  rewrite Hc in Hb |- *. destruct i as [|k].
  - cbn in Hb. injection Hb as <-. split; [exact Hg | intros p _ Hlt; lia].
  - cbn in Hb. split; [exact (links_ok_hash rest g b k Hlinks Hb)|].
    intros p Hp _. replace (S k - 1)%nat with k in Hp by lia.
    exact (proj2 (proj1 (links_ok_spec rest g) Hlinks k b p Hb Hp)).
Qed.

(** X1: in the ledger that [process_transactions] returns, the block at
    position [i] has index [i], carries the [i]-th reading of the clock as
    its timestamp, recomputes to its stored hash, and (for [i > 0]) has as
    [previous_hash] the stored hash of the block before it. *)
Theorem built_block_fields (rt : Runtime) (df : list Row) (block_size : Z)
    (l : BlockchainLedger) (i : nat) (b : Block) :
  process_transactions rt df block_size = Ok l ->
  chain l !! i = Some b ->
  index b = Z.of_nat i
  /\ timestamp b = time_time rt i
  /\ hash b = calculate_hash b
  /\ forall p, chain l !! (i - 1)%nat = Some p -> (0 < i)%nat -> previous_hash b = hash p.
Proof.
  exact (built_block_facts rt df block_size l i b).
Qed.

Lemma built_block_fields_witness :
  index (Sample.nth_block 2) = 2
  /\ timestamp (Sample.nth_block 2) = float_of_Z 1730664002
  /\ previous_hash (Sample.nth_block 2) = hash (Sample.nth_block 1).
Proof.
  destruct (built_block_fields Demo.rt Sample.df 2 Sample.built 2 (Sample.nth_block 2))
    as (Hi & Ht & _ & Hp); [vm_compute; reflexivity | vm_compute; reflexivity |].
  split; [exact Hi|]. split; [rewrite Ht; vm_compute; reflexivity|].
  apply Hp; [vm_compute; reflexivity | lia].
Defined.

(** X2: the ledger that [process_transactions] returns starts with a
    genesis block (no transactions, previous hash "0"), and no later block
    is empty, whatever the block size. *)
Theorem built_genesis_first (rt : Runtime) (df : list Row) (block_size : Z)
    (l : BlockchainLedger) :
  process_transactions rt df block_size = Ok l -> genesis_first l.
Proof.
  intros Hl. unfold process_transactions in Hl.
  destruct (process_transactions_at_inv rt 0 (fun l _ => genesis_first l) df block_size)
    as (l1 & t & Hl1 & Hg).
  - split; [eexists; split; [reflexivity | split; reflexivity]|].
    intros i b Hi. destruct i; discriminate.
  - intros l0 txns t0 l' t' Hg Htx Hadd.
    exact (genesis_first_add_block rt l0 l' txns t0 t' Hg Htx Hadd).
  - rewrite Hl1 in Hl. injection Hl as ->. exact Hg.
Qed.

Lemma built_genesis_first_witness : genesis_first Sample.built.
Proof.
  apply (built_genesis_first Demo.rt Sample.df 2). vm_compute. reflexivity.
Defined.

(** ** Digests *)

Lemma length_string_of_list_ascii (cs : list ascii) :
  String.length (string_of_list_ascii cs) = length cs.
Proof.
  induction cs as [|c cs IH]; [reflexivity|]. cbn. rewrite IH. reflexivity.
Qed.

Lemma length_hex (bs : list Z) :
  String.length (Sha256.hex bs) = (2 * length bs)%nat.
Proof.
  unfold Sha256.hex. rewrite length_string_of_list_ascii.
  induction bs as [|b bs IH]; [reflexivity|].
  cbn [flat_map app length]. rewrite IH. lia.
Qed.

Lemma length_digest (msg : list Z) : length (Sha256.digest msg) = 32%nat.
Proof.
  unfold Sha256.digest.
  destruct (Sha256.blocks _ _ _) as [[[[[[[a b] c] d] e] f] g] h]. reflexivity.
Qed.

Lemma hex_digit_is_hex (n : Z) :
  0 <= n < 16 -> is_hex_char (Sha256.hex_digit n) = true.
Proof.
  intros Hn.
  assert (Hall : forallb (fun k => is_hex_char (Sha256.hex_digit (Z.of_nat k))) (seq 0 16)
                 = true) by (vm_compute; reflexivity).
  rewrite <- (Z2Nat.id n) by lia.
  apply (proj1 (forallb_forall _ _) Hall). apply in_seq. lia.
Qed.

Lemma be_bytes_range (n : nat) (x : Z) : Forall (fun b => 0 <= b < 256) (Sha256.be_bytes n x).
Proof.
  induction n as [|n IH]; [constructor|].
  cbn [Sha256.be_bytes]. constructor; [|exact IH].
  change 255 with (Z.ones 8). rewrite Z.land_ones by lia.
  apply Z.mod_pos_bound. lia.
Qed.

Lemma digest_range (msg : list Z) : Forall (fun b => 0 <= b < 256) (Sha256.digest msg).
Proof.
  unfold Sha256.digest.
  destruct (Sha256.blocks _ _ _) as [[[[[[[a b] c] d] e] f] g] h].
  cbn [flat_map]. repeat (apply Forall_app; split; [apply be_bytes_range|]). constructor.
Qed.

Lemma hex_chars (bs : list Z) :
  Forall (fun b => 0 <= b < 256) bs ->
  forallb is_hex_char (list_ascii_of_string (Sha256.hex bs)) = true.
Proof.
  unfold Sha256.hex. rewrite list_ascii_of_string_of_list_ascii.
  induction 1 as [|b bs Hb _ IH]; [reflexivity|].
  cbn [flat_map app forallb]. rewrite IH, !hex_digit_is_hex; [reflexivity| |].
  - change 15 with (Z.ones 4). rewrite Z.land_ones by lia. apply Z.mod_pos_bound. lia.
  - rewrite Z.shiftr_div_pow2 by lia. change (2 ^ 4) with 16.
    split; [apply Z.div_pos; lia | apply Z.div_lt_upper_bound; lia].
Qed.

Lemma stored_hash_facts (rt : Runtime) :
  (forall s, String.length (sha256_hexdigest s) = 64%nat
             /\ forallb is_hex_char (list_ascii_of_string (sha256_hexdigest s)) = true)
  /\ (forall df block_size l i b,
         process_transactions rt df block_size = Ok l -> chain l !! i = Some b ->
         String.length (hash b) = 64%nat
         /\ forallb is_hex_char (list_ascii_of_string (hash b)) = true).
Proof.
  assert (Hfmt : forall s, String.length (sha256_hexdigest s) = 64%nat
             /\ forallb is_hex_char (list_ascii_of_string (sha256_hexdigest s)) = true).
  { intros s. unfold sha256_hexdigest. split.
    - rewrite length_hex, length_digest. reflexivity.
    - apply hex_chars, digest_range. }
  split; [exact Hfmt|].
  intros df block_size l i b Hl Hb.
  destruct (built_block_facts rt df block_size l i b Hl Hb) as (_ & _ & -> & _).
  apply Hfmt.
Qed.

(** X3: whatever the text, [hashlib.sha256(...).hexdigest()] is 64
    characters long and made of the digits 0-9 and a-f; so is therefore
    the stored hash of every block of a ledger that [process_transactions]
    returns. *)
Theorem stored_hash_format (rt : Runtime) :
  (forall s, String.length (sha256_hexdigest s) = 64%nat
             /\ forallb is_hex_char (list_ascii_of_string (sha256_hexdigest s)) = true)
  /\ (forall df block_size l i b,
         process_transactions rt df block_size = Ok l -> chain l !! i = Some b ->
         String.length (hash b) = 64%nat
         /\ forallb is_hex_char (list_ascii_of_string (hash b)) = true).
Proof.
  exact (stored_hash_facts rt).
Qed.

Lemma stored_hash_format_witness :
  String.length (hash (Sample.nth_block 3)) = 64%nat.
Proof.
  apply (proj2 (stored_hash_format Demo.rt) Sample.df 2 Sample.built 3%nat (Sample.nth_block 3));
    vm_compute; reflexivity.
Defined.

(** ** What verification does and does not notice *)

Lemma links_ok_take (rest : list Block) (p : Block) (k : nat) :
  links_ok p rest = true -> links_ok p (take k rest) = true.
Proof.
  revert p k. induction rest as [|c rest IH]; intros p k H.
  - rewrite take_nil. reflexivity.
  - destruct k as [|k]; [reflexivity|].
    cbn [take links_ok] in *. apply andb_true_iff in H as [Hc Hr].
    rewrite Hc, (IH c k Hr). reflexivity.
Qed.

(** X4: cutting a chain that verifies down to its first [k] blocks gives a
    chain that verifies: the loss of the last blocks is not noticed. *)
Theorem truncation_unnoticed (l : BlockchainLedger) (k : nat) :
  is_chain_valid l = true -> is_chain_valid (truncated k l) = true.
Proof.
  destruct l as [[|g rest] txns]; intros H.
  - unfold truncated. cbn [chain]. rewrite take_nil. reflexivity.
  - destruct k as [|k]; [reflexivity|].
    unfold truncated. cbn [chain all_transactions take].
    rewrite is_chain_valid_cons in H |- *. apply links_ok_take, H.
Qed.

Lemma truncation_unnoticed_witness :
  length (chain (truncated 2 Sample.built)) = 2%nat
  /\ is_chain_valid (truncated 2 Sample.built) = true.
Proof.
  split; [vm_compute; reflexivity|].
  apply truncation_unnoticed. vm_compute. reflexivity.
Defined.

Lemma list_insert_last {A : Type} (l : list A) (x y : A) :
  <[length l := y]> (l ++ [x]) = l ++ [y].
Proof.
  rewrite insert_app_r_alt by lia. rewrite Nat.sub_diag. reflexivity.
Qed.

(** X5: when the transactions of the last block are replaced and its
    stored hash is recomputed to match, a chain that verified still
    verifies: nothing after the last block vouches for it. *)
Theorem last_block_rewrite_unnoticed (l : BlockchainLedger) (b : Block)
    (txns : list Transaction) :
  is_chain_valid l = true ->
  last (chain l) = Some b ->
  is_chain_valid (set_block (length (chain l) - 1) (rehashed txns b) l) = true.
Proof.
  destruct l as [c all]. cbn [chain]. intros Hv Hlast.
  destruct (last_Some c b) as [[pre Hc] _]; [exact Hlast|]. subst c.
  unfold set_block. cbn [chain all_transactions].
  rewrite length_app. cbn [length].
  replace (length pre + 1 - 1)%nat with (length pre) by lia.
  rewrite list_insert_last.
  destruct pre as [|g rest]; [reflexivity|].
  change ((g :: rest) ++ [?x]) with (g :: rest ++ [x]) in *.
  rewrite is_chain_valid_cons in Hv |- *.
  rewrite links_ok_snoc in Hv |- *.
  apply andb_true_iff in Hv as [Hrest Hb].
  apply andb_true_iff in Hb as [_ Hprev].
  rewrite Hrest. cbn [hash previous_hash andb].
  apply andb_true_iff. split; [apply String.eqb_refl | exact Hprev].
Qed.

Lemma last_block_rewrite_unnoticed_witness :
  transactions (Sample.nth_block 3) <> [Demo.txn Demo.hundred]
  /\ is_chain_valid (set_block 3 (rehashed [Demo.txn Demo.hundred] (Sample.nth_block 3))
                               Sample.built) = true.
Proof.
  split; [intros H; vm_compute in H; discriminate H|].
  apply (last_block_rewrite_unnoticed Sample.built (Sample.nth_block 3));
    vm_compute; reflexivity.
Defined.

Lemma links_ok_link (rest : list Block) (p b c : Block) (k : nat) :
  (p :: rest) !! k = Some b -> (p :: rest) !! S k = Some c ->
  previous_hash c <> hash b -> links_ok p rest = false.
Proof.
  revert p k. induction rest as [|x rest IH]; intros p k Hb Hc Hne.
  - destruct k; discriminate.
  - cbn [links_ok]. destruct k as [|k].
    + cbn in Hb, Hc. injection Hb as <-. injection Hc as <-.
      apply String.eqb_neq in Hne. rewrite Hne, andb_false_r. reflexivity.
    + rewrite (IH x k Hb Hc Hne). apply andb_false_r.
Qed.

(** X6: in a chain that verifies, giving any block other than the last a
    different stored hash (as recomputing it after a change does) makes
    verification fail, the genesis block included: the block after it
    still carries the old hash. *)
Theorem inner_block_rehash_detected (l : BlockchainLedger) (i : nat) (b b' : Block) :
  is_chain_valid l = true ->
  chain l !! i = Some b ->
  (S i < length (chain l))%nat ->
  hash b' <> hash b ->
  is_chain_valid (set_block i b' l) = false.
Proof.
  destruct l as [c all]. cbn [chain]. intros Hv Hb Hlen Hne.
  destruct (lookup_lt_is_Some_2 c (S i) Hlen) as [nxt Hnxt].
  assert (Hlink : previous_hash nxt = hash b).
  { exact (proj2 (proj1 (is_chain_valid_iff {| chain := c; all_transactions := all |})
                    Hv i nxt b Hnxt Hb)). }
  assert (Hne' : previous_hash nxt <> hash b').
  { rewrite Hlink. intros H. apply Hne. symmetry. exact H. }
  unfold set_block. cbn [chain all_transactions].
  destruct c as [|g rest]; [discriminate|]. cbn [length] in Hlen.
  destruct i as [|k].
  - change (<[0%nat := b']> (g :: rest)) with (b' :: rest).
    rewrite is_chain_valid_cons.
    apply (links_ok_link rest b' b' nxt 0%nat); [reflexivity | exact Hnxt | exact Hne'].
  - change (<[S k := b']> (g :: rest)) with (g :: <[k := b']> rest).
    rewrite is_chain_valid_cons.
    apply (links_ok_link _ g b' nxt (S k)); [| | exact Hne'].
    + change ((<[k := b']> rest) !! k = Some b'). apply list_lookup_insert_eq. lia.
    + change ((<[k := b']> rest) !! S k = Some nxt).
      rewrite list_lookup_insert_ne by lia. exact Hnxt.
Qed.

Lemma inner_block_rehash_detected_witness :
  is_chain_valid (set_block 0 (rehashed [Demo.txn Demo.hundred] (Sample.nth_block 0))
                            Sample.built) = false.
Proof.
  apply (inner_block_rehash_detected Sample.built 0 (Sample.nth_block 0)).
  - vm_compute. reflexivity.
  - vm_compute. reflexivity.
  - vm_compute. lia.
  - intros H. vm_compute in H. discriminate H.
Defined.

(** ** Appending blocks *)

(** X8: after a successful [add_block], [get_latest_block] returns the new
    block: it holds the batch, its index is the former length of the chain,
    its timestamp is the clock reading made, its previous hash is the
    stored hash of the former latest block, and it recomputes to its stored
    hash; the chain has grown by it alone and [all_transactions] by the
    batch. *)
Theorem add_block_then_latest (rt : Runtime) (l l' : BlockchainLedger)
    (txns : list Transaction) (tick tick' : nat) :
  add_block rt l txns tick = Ok (l', tick') ->
  exists old new,
    get_latest_block l = Ok old
    /\ get_latest_block l' = Ok new
    /\ transactions new = txns
    /\ index new = Z.of_nat (length (chain l))
    /\ timestamp new = time_time rt tick
    /\ previous_hash new = hash old
    /\ hash new = calculate_hash new
    /\ chain l' = chain l ++ [new]
    /\ all_transactions l' = all_transactions l ++ txns
    /\ tick' = S tick.
Proof.
  intros Hadd.
  destruct (add_block_inversion rt l l' txns tick tick' Hadd)
    as (old & Hold & Ht & Hall & Hc).
  exists old. eexists. unfold get_latest_block. rewrite Hold, Hc, last_snoc.
  repeat split; try reflexivity; assumption.
Qed.

Lemma add_block_then_latest_witness :
  exists old new,
    get_latest_block Demo.fresh = Ok old
    /\ get_latest_block {| chain := take 2 (chain Sample.built);
                           all_transactions := transactions (Sample.nth_block 1) |} = Ok new
    /\ transactions new = transactions (Sample.nth_block 1)
    /\ index new = 1
    /\ previous_hash new = hash old.
Proof.
  destruct (add_block_then_latest Demo.rt Demo.fresh
              {| chain := take 2 (chain Sample.built);
                 all_transactions := transactions (Sample.nth_block 1) |}
              (transactions (Sample.nth_block 1)) 1 2)
    as (old & new & H1 & H2 & H3 & H4 & _ & H6 & _); [vm_compute; reflexivity|].
  exists old, new. repeat split; assumption.
Defined.

(** X9: [add_block] is not idempotent and keeps a verifying chain
    verifying: appending the same batch twice adds two blocks and the batch
    twice to [all_transactions], and if the chain verified before it
    verifies after each append. *)
Theorem add_block_twice (rt : Runtime) (l l1 : BlockchainLedger)
    (txns : list Transaction) (tick tick1 : nat) :
  add_block rt l txns tick = Ok (l1, tick1) ->
  exists l2,
    add_block rt l1 txns tick1 = Ok (l2, S (S tick))
    /\ length (chain l2) = (length (chain l) + 2)%nat
    /\ all_transactions l2 = all_transactions l ++ txns ++ txns
    /\ (is_chain_valid l = true -> is_chain_valid l1 = true /\ is_chain_valid l2 = true).
Proof.
  assert (Hkeep : forall a a' ts t t',
             add_block rt a ts t = Ok (a', t') ->
             is_chain_valid a = true -> is_chain_valid a' = true).
  { intros a a' ts t t' Ha Hv.
    destruct (add_block_inversion rt a a' ts t t' Ha) as (old & Hold & _ & _ & Hc).
    destruct a as [[|g rest] all]; [discriminate|]. destruct a' as [c' all'].
    cbn [chain] in *. subst c'.
    change ((g :: rest) ++ [?x]) with (g :: rest ++ [x]).
    rewrite is_chain_valid_cons in Hv |- *. rewrite links_ok_snoc, Hv.
    cbn [hash previous_hash andb]. apply eqb_pair_true. split; [reflexivity|].
    rewrite last_cons in Hold. destruct (last rest); injection Hold as <-; reflexivity. }
  intros Hadd.
  destruct (add_block_inversion rt l l1 txns tick tick1 Hadd) as (old & Hold & -> & Hall & Hc).
  destruct (add_block rt l1 txns (S tick)) as [[l2 t2]|e] eqn:Hadd2.
  - destruct (add_block_inversion rt l1 l2 txns (S tick) t2 Hadd2)
      as (old2 & _ & -> & Hall2 & Hc2).
    exists l2. split; [reflexivity|]. split; [|split].
    + rewrite Hc2, Hc, !length_app. cbn [length]. lia.
    + rewrite Hall2, Hall, <- app_assoc. reflexivity.
    + intros Hv. split; [exact (Hkeep _ _ _ _ _ Hadd Hv)|].
      exact (Hkeep _ _ _ _ _ Hadd2 (Hkeep _ _ _ _ _ Hadd Hv)).
  - exfalso. unfold add_block, get_latest_block in Hadd2.
    rewrite Hc, last_snoc in Hadd2. discriminate Hadd2.
Qed.

Lemma add_block_twice_witness :
  exists l2,
    add_block Demo.rt {| chain := take 2 (chain Sample.built);
                         all_transactions := transactions (Sample.nth_block 1) |}
              (transactions (Sample.nth_block 1)) 2 = Ok (l2, 3%nat)
    /\ length (chain l2) = 3%nat
    /\ is_chain_valid l2 = true.
Proof.
  destruct (add_block_twice Demo.rt Demo.fresh
              {| chain := take 2 (chain Sample.built);
                 all_transactions := transactions (Sample.nth_block 1) |}
              (transactions (Sample.nth_block 1)) 1 2)
    as (l2 & H1 & H2 & _ & H4); [vm_compute; reflexivity|].
  exists l2. split; [exact H1|]. split; [exact H2|].
  apply H4. vm_compute. reflexivity.
Defined.

(** ** Rows *)

Lemma row_get_insert_ne (row : Row) (k key : string) (v : pyval) :
  k <> key -> row_get (<[k := v]> row) key = row_get row key.
Proof.
  intros H. unfold row_get, Row in *. rewrite lookup_insert_ne by exact H. reflexivity.
Qed.

(** X10: a row that lacks one of the six columns read is skipped, and a
    column other than those six is never read: setting it changes nothing
    of what the row gives. *)
Theorem row_columns (rt : Runtime) (row : Row) (key : string) :
  (key ∈ columns -> row !! key = None -> malformed rt row = true)
  /\ (key ∉ columns ->
      forall v, Transaction_of_row rt (<[key := v]> row) = Transaction_of_row rt row).
Proof.
  split.
  - intros Hin Hnone. unfold malformed, Transaction_of_row, row_get.
    unfold columns in Hin. rewrite !elem_of_cons, elem_of_nil in Hin.
    destruct (row !! "Sender_account") eqn:H1;
      [|reflexivity].
    destruct (row !! "Receiver_account") eqn:H2; [|reflexivity].
    destruct (row !! "Amount") eqn:H3; [|reflexivity].
    cbn [bind]. destruct (py_float rt _); [|reflexivity].
    destruct (row !! "Payment_currency") eqn:H4; [|reflexivity].
    destruct (row !! "Is_laundering") eqn:H5; [|reflexivity].
    cbn [bind]. destruct (py_int rt _); [|reflexivity].
    destruct (row !! "Payment_type") eqn:H6; [|reflexivity].
    exfalso.
    destruct Hin as [->|[->|[->|[->|[->|[->|[]]]]]]]; congruence.
  - intros Hout v. unfold columns in Hout.
    rewrite !not_elem_of_cons in Hout.
    destruct Hout as (N1 & N2 & N3 & N4 & N5 & N6 & _).
    unfold Transaction_of_row. rewrite !row_get_insert_ne by congruence. reflexivity.
Qed.

Lemma row_columns_witness :
  malformed Demo.rt Sample.short_row = true
  /\ Transaction_of_row Demo.rt (<["Date" := PyStr "2024-01-01"]> Demo.good_row)
     = Transaction_of_row Demo.rt Demo.good_row.
Proof.
  split.
  - apply (proj1 (row_columns Demo.rt Sample.short_row "Amount")).
    + unfold columns. rewrite !elem_of_cons. auto 10.
    + vm_compute. reflexivity.
  - apply (proj2 (row_columns Demo.rt Demo.good_row "Date")).
    unfold columns. rewrite !not_elem_of_cons. repeat split; try discriminate.
    apply not_elem_of_nil.
Defined.

Lemma valid_txns_none (rt : Runtime) (df : list Row) :
  Forall (fun row => malformed rt row = true) df -> valid_txns rt df = [].
Proof.
  unfold valid_txns. induction 1 as [|row df Hrow _ IH]; [reflexivity|].
  change (omap (row_txn rt) (row :: df))
    with (match row_txn rt row with
          | Some y => y :: omap (row_txn rt) df
          | None => omap (row_txn rt) df
          end).
  unfold row_txn at 1. unfold malformed in Hrow.
  destruct (Transaction_of_row rt row); [discriminate | exact IH].
Qed.

(** X11: when no row is valid (an empty frame, or every row malformed),
    [process_transactions] returns the ledger of the constructor: the
    genesis block alone, stamped with the first clock reading, and no
    transactions. *)
Theorem no_valid_rows (rt : Runtime) (df : list Row) (block_size : Z) :
  Forall (fun row => malformed rt row = true) df ->
  process_transactions rt df block_size
  = Ok {| chain := [{| index := 0; timestamp := time_time rt 0; transactions := [];
                       previous_hash := "0";
                       hash := sha256_hexdigest (block_string 0 (time_time rt 0) [] "0") |}];
          all_transactions := [] |}.
Proof.
  intros Hdf. unfold process_transactions.
  rewrite process_transactions_at_fold, (valid_txns_none rt df Hdf). reflexivity.
Qed.

Lemma no_valid_rows_witness :
  exists g,
    process_transactions Demo.rt [Sample.short_row; Demo.bad_amount_row] 100
    = Ok {| chain := [g]; all_transactions := [] |}.
Proof.
  eexists. apply no_valid_rows.
  repeat constructor.
Defined.

(** ** Blocks once closed *)

Lemma fold_push_chain (rt : Runtime) (block_size : Z) (xs : list Transaction)
    (st : loop_state) (done : list Transaction) :
  base_inv st done ->
  exists more,
    chain (ledger (fold_left (push rt block_size) xs st)) = chain (ledger st) ++ more.
Proof.
  revert st done. induction xs as [|x xs IH]; intros st done Hb.
  - exists []. rewrite app_nil_r. reflexivity.
  - cbn [fold_left].
    destruct (IH (push rt block_size st x) (done ++ [x]) (push_base rt block_size st done x Hb))
      as (more & ->).
    unfold push.
    destruct (Z.of_nat (length (txn_batch st ++ [x])) >=? block_size).
    + destruct (add_block_wf rt (ledger st) (txn_batch st ++ [x]) (clock st) (proj1 Hb))
        as (nb & -> & _ & _).
      cbn [ledger chain]. exists (nb :: more). rewrite <- app_assoc. reflexivity.
    + exists more. reflexivity.
Qed.

Lemma final_block_chain (rt : Runtime) (st : loop_state) (done : list Transaction)
    (l : BlockchainLedger) :
  base_inv st done ->
  match txn_batch st with
  | [] => Ok (ledger st)
  | _ :: _ => let* r := add_block rt (ledger st) (txn_batch st) (clock st) in Ok (fst r)
  end = Ok l ->
  exists more, chain l = chain (ledger st) ++ more.
Proof.
  intros Hb. destruct (txn_batch st) as [|x batch].
  - intros H. injection H as <-. exists []. rewrite app_nil_r. reflexivity.
  - destruct (add_block_wf rt (ledger st) (x :: batch) (clock st) (proj1 Hb))
      as (nb & -> & _ & _).
    cbn [bind fst]. intros H. injection H as <-. exists [nb]. reflexivity.
Qed.

(** X12: with a positive block size, the blocks that the rows [df1] have
    closed are not touched by rows that come after them: the first
    [1 + v1 / b] blocks ([v1] the number of valid rows of [df1]) are the
    same whether ingestion stops after [df1] or goes on with [df2], and the
    transactions of [df1] stay at the front of [all_transactions]. *)
Theorem closed_blocks_stable (rt : Runtime) (df1 df2 : list Row) (block_size : Z)
    (l1 l12 : BlockchainLedger) :
  0 < block_size ->
  process_transactions rt df1 block_size = Ok l1 ->
  process_transactions rt (df1 ++ df2) block_size = Ok l12 ->
  let n := S (length (valid_txns rt df1) / Z.to_nat block_size) in
  take n (chain l12) = take n (chain l1)
  /\ (n <= length (chain l1))%nat
  /\ all_transactions l12 = all_transactions l1 ++ valid_txns rt df2.
Proof.
  intros Hbs H1 H12 n. unfold process_transactions in H1, H12.
  assert (Hb : (0 < Z.to_nat block_size)%nat) by lia.
  assert (Hzb : block_size = Z.of_nat (Z.to_nat block_size)) by lia.
  set (b := Z.to_nat block_size) in *.
  split; [|split].
  - rewrite process_transactions_at_fold in H1, H12. cbv zeta in H1, H12.
    unfold valid_txns in H12. rewrite omap_app, fold_left_app in H12.
    fold (valid_txns rt df1) in H12. fold (valid_txns rt df2) in H12.
    set (st0 := {| ledger := fst (BlockchainLedger_init rt 0); txn_batch := [];
                   clock := snd (BlockchainLedger_init rt 0) |}) in *.
    assert (H0 : base_inv st0 [] /\ batch_inv b st0).
    { destruct (BlockchainLedger_init_wf rt 0) as (g & Hg & Hgt & Hwf).
      subst st0. rewrite Hg. cbn [fst snd].
      split; [split; [exact Hwf | reflexivity]|].
      split; [exact Hb|]. exists 0%nat. cbn. rewrite Hgt. reflexivity. }
    pose proof (fold_push_inv rt (fun st done => base_inv st done /\ batch_inv b st)
                  block_size) as Hfold.
    rewrite Hzb in Hfold.
    destruct (Hfold
                (fun st done x H =>
                   conj (push_base rt (Z.of_nat b) st done x (proj1 H))
                        (push_batch rt b st done x (proj1 H) (proj2 H)))
                (valid_txns rt df1) st0 [] H0)
      as [Hinv [Hlen (q & Hq)]].
    rewrite <- Hzb in Hinv, Hlen, Hq. cbn [app] in Hinv.
    set (st1 := fold_left (push rt block_size) (valid_txns rt df1) st0) in *.
    assert (Hn : length (chain (ledger st1)) = n).
    { replace (length (chain (ledger st1))) with (length (sizes (chain (ledger st1))))
        by (unfold sizes; apply length_map).
      rewrite Hq. cbn [length]. rewrite repeat_length. unfold n. f_equal.
      destruct Hinv as [[_ Hcat] Happ].
      apply (Nat.div_unique _ b q (length (txn_batch st1))); [exact Hlen|].
      rewrite <- Happ, length_app, Hcat, length_concat_sizes, Hq.
      cbn [sum_list sum_list_with].
      change (sum_list_with id (repeat b q)) with (sum_list (repeat b q)).
      rewrite sum_list_repeat. unfold id. lia. }
    destruct (final_block_chain rt st1 _ l1 Hinv H1) as (m1 & ->).
    destruct (fold_push_chain rt block_size (valid_txns rt df2) st1 _ Hinv) as (m2 & Hm2).
    pose proof (fold_push_inv rt base_inv block_size (push_base rt block_size)
                  (valid_txns rt df2) st1 _ Hinv) as Hinv2.
    destruct (final_block_chain rt _ _ l12 Hinv2 H12) as (m3 & ->).
    rewrite Hm2, <- app_assoc, <- Hn, !take_app_length. reflexivity.
  - destruct (process_transactions_at_sizes rt 0 df1 b Hb) as (l & Hl & _ & _ & Hsz).
    rewrite <- Hzb, H1 in Hl. injection Hl as <-.
    replace (length (chain l1)) with (length (sizes (chain l1)))
      by (unfold sizes; apply length_map).
    rewrite Hsz, length_block_sizes. unfold n. lia.
  - destruct (process_transactions_at_ok rt 0 df1 block_size) as (l & Hl & _ & Hall).
    rewrite H1 in Hl. injection Hl as <-.
    destruct (process_transactions_at_ok rt 0 (df1 ++ df2) block_size) as (l & Hl & _ & Hall').
    rewrite H12 in Hl. injection Hl as <-.
    rewrite Hall, Hall'. unfold valid_txns. apply omap_app.
Qed.

Lemma closed_blocks_stable_witness :
  take 3 (chain Sample.built)
  = take 3 (chain {| chain := take 3 (chain Sample.built);
                     all_transactions := take 4 (all_transactions Sample.built) |}).
Proof.
  destruct (closed_blocks_stable Demo.rt (take 5 Sample.df) (drop 5 Sample.df) 2
              {| chain := take 3 (chain Sample.built);
                 all_transactions := take 4 (all_transactions Sample.built) |}
              Sample.built) as (H & _ & _).
  - lia.
  - vm_compute. reflexivity.
  - vm_compute. reflexivity.
  - exact H.
Defined.

(** ** The queries *)

Lemma fold_flags (txns : list Transaction) (acc : Z) :
  fold_left (fun a txn => a + (if is_laundering txn then 1 else 0)) txns acc
  = acc + Z.of_nat (length (List.filter is_laundering txns)).
Proof.
  revert acc. induction txns as [|t txns IH]; intros acc; [cbn; lia|].
  cbn [fold_left List.filter]. rewrite IH.
  destruct (is_laundering t); cbn [length]; lia.
Qed.

Lemma filter_by_flag (l : BlockchainLedger) (b : bool) :
  filter_by_laundering l (PyBool b)
  = List.filter (fun t => Bool.eqb (is_laundering t) b) (all_transactions l).
Proof.
  unfold filter_by_laundering. apply List.filter_ext. intros t.
  destruct (is_laundering t), b; reflexivity.
Qed.

Lemma length_filter_split {A : Type} (f : A -> bool) (l : list A) :
  (length (List.filter f l) + length (List.filter (fun x => negb (f x)) l) = length l)%nat.
Proof.
  induction l as [|x l IH]; [reflexivity|].
  cbn [List.filter]. destruct (f x); cbn [negb length]; lia.
Qed.

Lemma summary_lookup (l : BlockchainLedger) :
  summary l !! "Total Transactions" = Some (Z.of_nat (length (all_transactions l)))
  /\ summary l !! "Total Blocks" = Some (Z.of_nat (length (chain l)))
  /\ summary l !! "Suspicious"
     = Some (Z.of_nat (length (filter_by_laundering l (PyBool true))))
  /\ summary l !! "Normal"
     = Some (Z.of_nat (length (filter_by_laundering l (PyBool false))))
  /\ (length (filter_by_laundering l (PyBool true))
      + length (filter_by_laundering l (PyBool false))
      = length (all_transactions l))%nat
  /\ dom (summary l)
     = {["Total Transactions"; "Suspicious"; "Normal"; "Total Blocks"]}.
Proof.
  assert (Hsplit : (length (filter_by_laundering l (PyBool true))
      + length (filter_by_laundering l (PyBool false))
      = length (all_transactions l))%nat).
  { rewrite !filter_by_flag.
    rewrite <- (length_filter_split is_laundering (all_transactions l)). f_equal.
    all: f_equal; apply List.filter_ext; intros t; destruct (is_laundering t); reflexivity. }
  assert (Hflag : fold_left (fun a txn => a + (if is_laundering txn then 1 else 0))
                            (all_transactions l) 0
                  = Z.of_nat (length (filter_by_laundering l (PyBool true)))).
  { rewrite fold_flags, filter_by_flag, Z.add_0_l. do 2 f_equal.
    apply List.filter_ext. intros t. destruct (is_laundering t); reflexivity. }
  unfold summary. cbn [list_to_map foldr uncurry fst snd curry].
  split; [|split; [|split; [|split; [|split]]]].
  - simplify_map_eq. reflexivity.
  - simplify_map_eq. reflexivity.
  - simplify_map_eq. rewrite Hflag. reflexivity.
  - simplify_map_eq. rewrite Hflag. f_equal. lia.
  - exact Hsplit.
  - rewrite !dom_insert_L, dom_empty_L. set_solver.
Qed.

(** X13: [summary] reports the number of transactions, the number of
    blocks, and the numbers of flagged and unflagged transactions; the last
    two add up to the first and are the lengths of what
    [filter_by_laundering] returns for [True] and for [False]. *)
Theorem summary_counts (l : BlockchainLedger) :
  summary l !! "Total Transactions" = Some (Z.of_nat (length (all_transactions l)))
  /\ summary l !! "Total Blocks" = Some (Z.of_nat (length (chain l)))
  /\ summary l !! "Suspicious"
     = Some (Z.of_nat (length (filter_by_laundering l (PyBool true))))
  /\ summary l !! "Normal"
     = Some (Z.of_nat (length (filter_by_laundering l (PyBool false))))
  /\ (length (filter_by_laundering l (PyBool true))
      + length (filter_by_laundering l (PyBool false))
      = length (all_transactions l))%nat
  /\ dom (summary l)
     = {["Total Transactions"; "Suspicious"; "Normal"; "Total Blocks"]}.
Proof.
  exact (summary_lookup l).
Qed.

(** X14: on the ledger that [process_transactions] returns, [summary]
    counts the rows that were not malformed, and, with a positive block
    size [b] and [v] valid rows, [1 + ceil (v / b)] blocks. *)
Theorem summary_of_built (rt : Runtime) (df : list Row) (block_size : Z)
    (l : BlockchainLedger) :
  process_transactions rt df block_size = Ok l ->
  summary l !! "Total Transactions"
  = Some (Z.of_nat (length df) - Z.of_nat (length (List.filter (malformed rt) df)))
  /\ (0 < block_size ->
      summary l !! "Total Blocks"
      = Some (1 + (Z.of_nat (length (valid_txns rt df)) + block_size - 1) / block_size)).
Proof.
  intros Hl. unfold process_transactions in Hl.
  destruct (summary_lookup l) as (Htot & Hblocks & _).
  split.
  - destruct (process_transactions_at_ok rt 0 df block_size) as (l' & Hl' & _ & Hall).
    rewrite Hl in Hl'. injection Hl' as <-.
    rewrite Htot, Hall. pose proof (length_omap_filter rt df). f_equal. lia.
  - intros Hbs. rewrite Hblocks. f_equal.
    assert (Hb : (0 < Z.to_nat block_size)%nat) by lia.
    destruct (process_transactions_at_sizes rt 0 df (Z.to_nat block_size) Hb)
      as (l' & Hl' & _ & _ & Hsz).
    replace (Z.of_nat (Z.to_nat block_size)) with block_size in Hl' by lia.
    rewrite Hl in Hl'. injection Hl' as <-.
    replace (length (chain l)) with (length (sizes (chain l)))
      by (unfold sizes; apply length_map).
    rewrite Hsz, length_block_sizes.
    pose proof (ceil_div_nat (length (valid_txns rt df)) (Z.to_nat block_size) Hb) as Hc.
    replace (Z.of_nat (Z.to_nat block_size)) with block_size in Hc by lia.
    rewrite Hc. destruct (_ =? _)%nat; lia.
Qed.

Lemma summary_of_built_witness :
  summary Sample.built !! "Total Transactions" = Some 5
  /\ summary Sample.built !! "Total Blocks" = Some 4.
Proof.
  destruct (summary_of_built Demo.rt Sample.df 2 Sample.built) as [Ht Hb];
    [vm_compute; reflexivity|].
  split; [rewrite Ht; vm_compute; reflexivity|].
  rewrite Hb by lia. vm_compute. reflexivity.
Defined.

Lemma filter_sublist {A : Type} (f : A -> bool) (l : list A) : sublist (List.filter f l) l.
Proof.
  induction l as [|x l IH]; [constructor|].
  cbn [List.filter]. destruct (f x); [apply sublist_skip | apply sublist_cons]; exact IH.
Qed.

Lemma filter_split_perm {A : Type} (f : A -> bool) (l : list A) :
  Permutation l (List.filter f l ++ List.filter (fun x => negb (f x)) l).
Proof.
  induction l as [|x l IH]; [constructor|].
  cbn [List.filter]. destruct (f x); cbn [negb app].
  - constructor. exact IH.
  - rewrite <- Permutation_middle. constructor. exact IH.
Qed.

Lemma sublist_filter_max {A : Type} (f : A -> bool) (s l : list A) :
  sublist s l -> Forall (fun x => f x = true) s -> sublist s (List.filter f l).
Proof.
  intros Hs. induction Hs as [|x s k Hs IH|x s k Hs IH]; intros Hall.
  - constructor.
  - apply Forall_cons in Hall as [Hx Hall]. cbn [List.filter]. rewrite Hx.
    apply sublist_skip, IH, Hall.
  - cbn [List.filter]. destruct (f x).
    + apply sublist_cons, IH, Hall.
    + apply IH, Hall.
Qed.

(** X15: [search_by_account] returns exactly the transactions whose
    sender or receiver equals the account asked for, in their order in
    [all_transactions] and each as often as it occurs there: what it
    returns and the transactions that do not match make up
    [all_transactions], and any selection from [all_transactions] that
    holds only matching transactions is a selection from what it returns. *)
Theorem search_by_account_spec (l : BlockchainLedger) (account_id : pyval) :
  sublist (search_by_account l account_id) (all_transactions l)
  /\ Forall (fun t => account_matches account_id t = true) (search_by_account l account_id)
  /\ (exists rest,
         Forall (fun t => account_matches account_id t = false) rest
         /\ Permutation (all_transactions l) (search_by_account l account_id ++ rest))
  /\ (forall s,
         sublist s (all_transactions l) ->
         Forall (fun t => account_matches account_id t = true) s ->
         sublist s (search_by_account l account_id))
  /\ forall t,
       t ∈ search_by_account l account_id
       <-> t ∈ all_transactions l
           /\ (py_eq (sender t) account_id = true \/ py_eq (receiver t) account_id = true).
Proof.
  assert (Hdef : search_by_account l account_id
                 = List.filter (account_matches account_id) (all_transactions l))
    by reflexivity.
  split; [apply filter_sublist|].
  split.
  { rewrite Hdef. apply Forall_forall. intros t Ht.
    apply list_elem_of_In, List.filter_In in Ht as [_ Ht]. exact Ht. }
  split.
  { exists (List.filter (fun t => negb (account_matches account_id t)) (all_transactions l)).
    split.
    - apply Forall_forall. intros t Ht.
      apply list_elem_of_In, List.filter_In in Ht as [_ Ht].
      apply negb_true_iff, Ht.
    - rewrite Hdef. apply filter_split_perm. }
  split.
  { rewrite Hdef. intros s Hs Hall. apply sublist_filter_max; assumption. }
  intros t. unfold search_by_account.
  rewrite !list_elem_of_In, List.filter_In, orb_true_iff. reflexivity.
Qed.

Lemma search_by_account_spec_witness :
  search_by_account Demo.built (PyInt 2002)
  = [Demo.txn (float_of_decimal false 1005 (-1));
     Demo.txn (float_of_decimal false 1005 (-1));
     Demo.txn (float_of_decimal false 1005 (-1))].
Proof.
  destruct (search_by_account_spec Demo.built (PyInt 2002)) as (Hsub & _ & _ & Hmax & _).
  assert (Hall : all_transactions Demo.built
                 = [Demo.txn (float_of_decimal false 1005 (-1));
                    Demo.txn (float_of_decimal false 1005 (-1));
                    Demo.txn (float_of_decimal false 1005 (-1))])
    by (vm_compute; reflexivity).
  rewrite <- Hall. apply (anti_symm sublist); [exact Hsub|].
  apply Hmax; [reflexivity|]. rewrite Hall. repeat constructor.
Defined.

(** X16: an integer account id (the only kind the search box passes on)
    finds every transaction that has that integer as sender or receiver,
    and never a transaction whose sender and receiver are both text. *)
Theorem search_by_integer (l : BlockchainLedger) (n : Z) (t : Transaction) :
  (t ∈ all_transactions l -> sender t = PyInt n \/ receiver t = PyInt n ->
   t ∈ search_by_account l (PyInt n))
  /\ (forall s r, sender t = PyStr s -> receiver t = PyStr r ->
                  t ∉ search_by_account l (PyInt n)).
Proof.
  unfold search_by_account. split.
  - rewrite !list_elem_of_In, List.filter_In.
    intros Hin H. split; [exact Hin|]. apply orb_true_iff.
    destruct H as [-> | ->]; [left | right]; cbn; rewrite Z.compare_refl; reflexivity.
  - intros s r Hs Hr Hin. apply list_elem_of_In, List.filter_In in Hin as [_ H].
    rewrite Hs, Hr in H. discriminate H.
Qed.

Lemma search_by_integer_witness :
  Transaction_init (PyInt 1001) (PyInt 2002) (PyFloat (float_of_decimal false 755 (-1)))
                   (PyStr "EUR") (PyInt 1) (PyStr "Cash")
    ∈ search_by_account Sample.built (PyInt 1001)
  /\ Transaction_init (PyStr "ACME") (PyStr "BOLT") (PyFloat (float_of_Z 250))
                      (PyStr "EUR") (PyInt 0) (PyStr "Cash")
       ∉ search_by_account Sample.built (PyInt 1001).
Proof.
  split.
  - apply (proj1 (search_by_integer Sample.built 1001 _)).
    + vm_compute. apply list_elem_of_here.
    + left. reflexivity.
  - apply (proj2 (search_by_integer Sample.built 1001 _) "ACME" "BOLT"); reflexivity.
Defined.

(** X17: what [filter_by_laundering] returns for [True] and for [False]
    splits [all_transactions] in two: each keeps the order of
    [all_transactions], and together they hold every transaction once. The
    status is compared with [==]: 1 and 0 act as [True] and [False], while
    text or [None] matches no transaction. *)
Theorem filter_by_laundering_split (l : BlockchainLedger) :
  sublist (filter_by_laundering l (PyBool true)) (all_transactions l)
  /\ sublist (filter_by_laundering l (PyBool false)) (all_transactions l)
  /\ Permutation (all_transactions l)
       (filter_by_laundering l (PyBool true) ++ filter_by_laundering l (PyBool false))
  /\ Forall (fun t => is_laundering t = true) (filter_by_laundering l (PyBool true))
  /\ Forall (fun t => is_laundering t = false) (filter_by_laundering l (PyBool false))
  /\ filter_by_laundering l (PyInt 1) = filter_by_laundering l (PyBool true)
  /\ filter_by_laundering l (PyInt 0) = filter_by_laundering l (PyBool false)
  /\ (forall s, filter_by_laundering l (PyStr s) = [])
  /\ filter_by_laundering l PyNone = [].
Proof.
  split; [apply filter_sublist|]. split; [apply filter_sublist|].
  split.
  { rewrite !filter_by_flag.
    rewrite (List.filter_ext (fun t => Bool.eqb (is_laundering t) true) is_laundering)
      by (intros t; destruct (is_laundering t); reflexivity).
    rewrite (List.filter_ext (fun t => Bool.eqb (is_laundering t) false)
                             (fun t => negb (is_laundering t)))
      by (intros t; destruct (is_laundering t); reflexivity).
    apply filter_split_perm. }
  split.
  { apply Forall_forall. intros t Ht. rewrite filter_by_flag in Ht.
    apply list_elem_of_In, List.filter_In in Ht as [_ Ht].
    destruct (is_laundering t); [reflexivity | discriminate Ht]. }
  split.
  { apply Forall_forall. intros t Ht. rewrite filter_by_flag in Ht.
    apply list_elem_of_In, List.filter_In in Ht as [_ Ht].
    destruct (is_laundering t); [discriminate Ht | reflexivity]. }
  unfold filter_by_laundering.
  split; [apply List.filter_ext; intros t; destruct (is_laundering t); reflexivity|].
  split; [apply List.filter_ext; intros t; destruct (is_laundering t); reflexivity|].
  split; [intros s|]; induction (all_transactions l) as [|t ts IH]; try reflexivity;
    cbn [List.filter]; destruct (is_laundering t); exact IH.
Qed.

(** ** Sorting by amount *)

Lemma insert_by_perm {A : Type} (key : A -> pyval) (x : A) (l l' : list A) :
  insert_by key x l = Ok l' -> Permutation l' (x :: l).
Proof.
  revert l'. induction l as [|y r IH]; intros l' H.
  - injection H as <-. reflexivity.
  - cbn [insert_by] in H. destruct (py_lt (key x) (key y)) as [c|]; [|discriminate].
    cbn [bind] in H. destruct c.
    + injection H as <-. reflexivity.
    + destruct (insert_by key x r) as [r'|]; [|discriminate].
      cbn [bind] in H. injection H as <-.
      rewrite (IH r' eq_refl). apply perm_swap.
Qed.

Lemma sort_by_perm {A : Type} (key : A -> pyval) (l done s : list A) :
  sort_by key done l = Ok s -> Permutation s (done ++ l).
Proof.
  revert done. induction l as [|x r IH]; intros done H.
  - injection H as <-. rewrite app_nil_r. reflexivity.
  - cbn [sort_by] in H. destruct (insert_by key x done) as [done'|] eqn:Hi; [|discriminate].
    cbn [bind] in H. rewrite (IH done' H), (insert_by_perm key x done done' Hi).
    apply Permutation_middle.
Qed.

Lemma py_sorted_perm {A : Type} (key : A -> pyval) (reverse : bool) (l s : list A) :
  py_sorted key reverse l = Ok s -> Permutation s l.
Proof.
  unfold py_sorted. destruct reverse.
  - destruct (sort_by key [] (rev l)) as [s'|] eqn:Hs; [|discriminate].
    cbn [bind]. intros H. injection H as <-.
    rewrite <- Permutation_rev, (sort_by_perm key (rev l) [] s' Hs).
    cbn [app]. symmetry. apply Permutation_rev.
  - intros H. exact (sort_by_perm key l [] s H).
Qed.

(** X18: whatever the amounts, a list that [sort_by_amount] returns holds
    the transactions of [all_transactions], each as often as it occurs
    there: none is lost, added or repeated. *)
Theorem sort_by_amount_permutation (l : BlockchainLedger) (descending : bool)
    (s : list Transaction) :
  sort_by_amount l descending = Ok s ->
  Permutation s (all_transactions l) /\ length s = length (all_transactions l).
Proof.
  intros H. pose proof (py_sorted_perm amount descending _ s H) as Hp.
  split; [exact Hp | apply Permutation_length, Hp].
Qed.

Lemma sort_by_amount_permutation_witness :
  exists s, sort_by_amount Sample.built true = Ok s /\ length s = 5%nat.
Proof.
  eexists. split; [vm_compute; reflexivity|].
  apply (sort_by_amount_permutation Sample.built true). vm_compute. reflexivity.
Defined.

Lemma Forall_perm {A : Type} (P : A -> Prop) (l l' : list A) :
  Permutation l l' -> Forall P l -> Forall P l'.
Proof.
  intros Hp Hf. apply Forall_forall. intros z Hz.
  apply (proj1 (Forall_forall P l) Hf). rewrite Hp. exact Hz.
Qed.

Lemma Transaction_of_row_amount (rt : Runtime) (row : Row) (t : Transaction) :
  Transaction_of_row rt row = Ok t -> exists x, amount t = PyFloat x.
Proof.
  unfold Transaction_of_row, row_get.
  destruct (row !! "Sender_account"); [|discriminate].
  destruct (row !! "Receiver_account"); [|discriminate].
  destruct (row !! "Amount") as [a|]; [|discriminate].
  cbn [bind]. destruct (py_float rt a) as [x|]; [|discriminate].
  destruct (row !! "Payment_currency"); [|discriminate].
  destruct (row !! "Is_laundering") as [v|]; [|discriminate].
  cbn [bind]. destruct (py_int rt v) as [n|]; [|discriminate].
  destruct (row !! "Payment_type"); [|discriminate].
  cbn [bind]. intros H. injection H as <-. exists x. reflexivity.
Qed.

Lemma insert_by_floats (x : Transaction) (l : list Transaction) :
  (exists a, amount x = PyFloat a) ->
  Forall (fun t => exists a, amount t = PyFloat a) l ->
  exists l', insert_by amount x l = Ok l'.
Proof.
  intros [a Ha]. induction 1 as [|y r [b Hb] _ IH]; [eexists; reflexivity|].
  cbn [insert_by]. rewrite Ha, Hb. cbn [py_lt as_num bind].
  destruct (match num_compare _ _ with Some Lt => true | _ => false end);
    [eexists; reflexivity|].
  destruct IH as [r' ->]. eexists. reflexivity.
Qed.

Lemma sort_by_floats (l done : list Transaction) :
  Forall (fun t => exists a, amount t = PyFloat a) done ->
  Forall (fun t => exists a, amount t = PyFloat a) l ->
  exists s, sort_by amount done l = Ok s.
Proof.
  revert done. induction l as [|x r IH]; intros done Hd Hl; [eexists; reflexivity|].
  apply Forall_cons in Hl as [Hx Hr].
  destruct (insert_by_floats x done Hx Hd) as [done' Hi].
  cbn [sort_by]. rewrite Hi. cbn [bind]. apply IH; [|exact Hr].
  apply (Forall_perm _ (x :: done)); [|constructor; assumption].
  symmetry. exact (insert_by_perm amount x done done' Hi).
Qed.

(** X19: every transaction of a ledger that [process_transactions]
    returns has a float as amount, so [sort_by_amount] never raises on it,
    in either direction. *)
Theorem sort_by_amount_of_built (rt : Runtime) (df : list Row) (block_size : Z)
    (l : BlockchainLedger) (descending : bool) :
  process_transactions rt df block_size = Ok l ->
  Forall (fun t => exists x, amount t = PyFloat x) (all_transactions l)
  /\ exists s, sort_by_amount l descending = Ok s.
Proof.
  intros Hl. unfold process_transactions in Hl.
  destruct (process_transactions_at_ok rt 0 df block_size) as (l' & Hl' & _ & Hall).
  rewrite Hl in Hl'. injection Hl' as <-.
  assert (Hf : Forall (fun t => exists x, amount t = PyFloat x) (all_transactions l)).
  { rewrite Hall. apply Forall_forall. intros t Ht.
    apply list_elem_of_omap in Ht as (row & _ & Hrow).
    unfold row_txn in Hrow.
    destruct (Transaction_of_row rt row) as [t'|] eqn:Ht'; [|discriminate].
    injection Hrow as ->. exact (Transaction_of_row_amount rt row t Ht'). }
  split; [exact Hf|].
  unfold sort_by_amount, py_sorted. destruct descending.
  - destruct (sort_by_floats (rev (all_transactions l)) []) as [s ->];
      [constructor | apply Forall_rev, Hf |].
    eexists. reflexivity.
  - apply sort_by_floats; [constructor | exact Hf].
Qed.

Lemma sort_by_amount_of_built_witness :
  exists s, sort_by_amount Sample.built false = Ok s.
Proof.
  apply (proj2 (sort_by_amount_of_built Demo.rt Sample.df 2 Sample.built false
                  ltac:(vm_compute; reflexivity))).
Defined.

(** *** The order of amounts *)

Lemma SFcompare_rank (x y : float) :
  x <> S754_nan -> y <> S754_nan ->
  (SFcompare x y = Some Lt <-> rank_lt (float_rank x) (float_rank y)).
Proof.
  intros Hx Hy.
  destruct x as [sx|sx| |sx mx ex]; [| |contradiction|];
    (destruct y as [sy|sy| |sy my ey]; [| |contradiction|]);
    try destruct sx; try destruct sy; cbn [SFcompare float_rank rank_lt];
    try (split; [intros H; (discriminate H || lia) | intros H; (reflexivity || lia)]).
  - change (Pos.compare_cont Eq mx my) with (Pos.compare mx my).
    destruct (Z.compare_spec ex ey), (Pos.compare_spec mx my); cbn [CompOpp];
      split; intros H'; try discriminate H'; try reflexivity; lia.
  - change (Pos.compare_cont Eq mx my) with (Pos.compare mx my).
    destruct (Z.compare_spec ex ey), (Pos.compare_spec mx my);
      split; intros H'; try discriminate H'; try reflexivity; lia.
Qed.

Lemma py_lt_amount (a b : Transaction) :
  ordered_amount a -> ordered_amount b ->
  py_lt (amount a) (amount b) = Ok (amount_lt a b).
Proof.
  intros (x & Hx & _) (y & Hy & _). unfold amount_lt. rewrite Hx, Hy. reflexivity.
Qed.

Lemma amount_lt_rank (a b : Transaction) :
  ordered_amount a -> ordered_amount b ->
  (amount_lt a b = true <-> rank_lt (amount_rank a) (amount_rank b)).
Proof.
  intros (x & Hx & Nx) (y & Hy & Ny). unfold amount_lt, amount_rank.
  rewrite Hx, Hy. cbn [py_lt as_num num_compare].
  rewrite <- (SFcompare_rank x y Nx Ny).
  destruct (SFcompare x y) as [[| |]|]; split; intros H; try discriminate H; reflexivity.
Qed.

Lemma amount_lt_false_rank (a b : Transaction) :
  ordered_amount a -> ordered_amount b ->
  (amount_lt a b = false <-> ~ rank_lt (amount_rank a) (amount_rank b)).
Proof.
  intros Ha Hb. rewrite <- (amount_lt_rank a b Ha Hb).
  destruct (amount_lt a b); split; intros H; try discriminate H; try reflexivity.
  - destruct (H eq_refl).
  - intros H'. discriminate H'.
Qed.

Lemma same_amount_rank (a b : Transaction) :
  ordered_amount a -> ordered_amount b ->
  (same_amount a b = true <-> amount_rank a = amount_rank b).
Proof.
  intros Ha Hb. unfold same_amount.
  rewrite andb_true_iff, !negb_true_iff.
  rewrite (amount_lt_false_rank a b Ha Hb), (amount_lt_false_rank b a Hb Ha).
  destruct (amount_rank a) as [[a1 a2] a3], (amount_rank b) as [[b1 b2] b3].
  unfold rank_lt. split.
  - intros [H1 H2]. assert (a1 = b1 /\ a2 = b2 /\ a3 = b3) as (-> & -> & ->) by lia.
    reflexivity.
  - intros H. injection H as -> -> ->. lia.
Qed.

Lemma filter_none {A : Type} (f : A -> bool) (l : list A) :
  Forall (fun z => f z = false) l -> List.filter f l = [].
Proof.
  induction 1 as [|z r Hz _ IH]; [reflexivity|]. cbn [List.filter]. rewrite Hz. exact IH.
Qed.

Lemma insert_by_amount (x : Transaction) (l : list Transaction) :
  ordered_amount x -> Forall ordered_amount l -> ordered_by amount_lt l ->
  exists l',
    insert_by amount x l = Ok l'
    /\ ordered_by amount_lt l'
    /\ forall t, ordered_amount t ->
         List.filter (same_amount t) l'
         = List.filter (same_amount t) l ++ (if same_amount t x then [x] else []).
Proof.
  intros Hx Hl. induction Hl as [|y r Hy Hr IH]; intros Hord.
  - exists [x]. split; [reflexivity|]. split; [split; [constructor | exact I]|].
    intros t _. reflexivity.
  - destruct Hord as [Hry Hord]. cbn [insert_by].
    rewrite (py_lt_amount x y Hx Hy). cbn [bind].
    destruct (amount_lt x y) eqn:Hc.
    + exists (x :: y :: r). split; [reflexivity|].
      apply (amount_lt_rank x y Hx Hy) in Hc.
      assert (Hlater : Forall (fun z => ordered_amount z
                                        /\ ~ rank_lt (amount_rank z) (amount_rank y))
                              (y :: r)).
      { constructor.
        - split; [exact Hy|]. destruct (amount_rank y) as [[y1 y2] y3]. unfold rank_lt. lia.
        - apply Forall_forall. intros z Hz.
          pose proof (proj1 (Forall_forall _ _) Hr z Hz) as Hoz.
          split; [exact Hoz|].
          apply (amount_lt_false_rank z y Hoz Hy).
          exact (proj1 (Forall_forall _ _) Hry z Hz). }
      split.
      * split; [|split; assumption].
        apply Forall_forall. intros z Hz.
        destruct (proj1 (Forall_forall _ _) Hlater z Hz) as [Hoz Hzy].
        apply (amount_lt_false_rank z x Hoz Hx).
        destruct (amount_rank x) as [[x1 x2] x3], (amount_rank y) as [[y1 y2] y3],
                 (amount_rank z) as [[z1 z2] z3].
        unfold rank_lt in *. lia.
      * intros t Ht. cbn [List.filter].
        destruct (same_amount t x) eqn:Htx; [|rewrite app_nil_r; reflexivity].
        apply (same_amount_rank t x Ht Hx) in Htx.
        change (if same_amount t y then y :: List.filter (same_amount t) r
                else List.filter (same_amount t) r)
          with (List.filter (same_amount t) (y :: r)).
        rewrite (filter_none (same_amount t) (y :: r)); [reflexivity|].
        apply Forall_forall. intros z Hz.
        destruct (proj1 (Forall_forall _ _) Hlater z Hz) as [Hoz Hzy].
        destruct (same_amount t z) eqn:Htz; [|reflexivity].
        apply (same_amount_rank t z Ht Hoz) in Htz. exfalso.
        rewrite <- Htz, Htx in Hzy.
        destruct (amount_rank x) as [[x1 x2] x3], (amount_rank y) as [[y1 y2] y3].
        unfold rank_lt in *. lia.
    + destruct (IH Hord) as (r' & Hr' & Hord' & Hst).
      rewrite Hr'. cbn [bind]. exists (y :: r'). split; [reflexivity|].
      split.
      * split; [|exact Hord'].
        apply (Forall_perm _ (x :: r)).
        -- symmetry. exact (insert_by_perm amount x r r' Hr').
        -- constructor; [exact Hc | exact Hry].
      * intros t Ht. cbn [List.filter]. rewrite (Hst t Ht).
        destruct (same_amount t y); reflexivity.
Qed.

Lemma sort_by_amount_facts (l done : list Transaction) :
  Forall ordered_amount done -> Forall ordered_amount l -> ordered_by amount_lt done ->
  exists s,
    sort_by amount done l = Ok s
    /\ ordered_by amount_lt s
    /\ forall t, ordered_amount t ->
         List.filter (same_amount t) s
         = List.filter (same_amount t) done ++ List.filter (same_amount t) l.
Proof.
  revert done. induction l as [|x r IH]; intros done Hd Hl Hord.
  - exists done. split; [reflexivity|]. split; [exact Hord|].
    intros t _. rewrite app_nil_r. reflexivity.
  - apply Forall_cons in Hl as [Hx Hr].
    destruct (insert_by_amount x done Hx Hd Hord) as (done' & Hi & Hord' & Hst).
    cbn [sort_by]. rewrite Hi. cbn [bind].
    destruct (IH done') as (s & Hs & Hos & Hss); [|exact Hr|exact Hord'|].
    { apply (Forall_perm _ (x :: done)); [|constructor; assumption].
      symmetry. exact (insert_by_perm amount x done done' Hi). }
    exists s. split; [exact Hs|]. split; [exact Hos|].
    intros t Ht. rewrite (Hss t Ht), (Hst t Ht), <- app_assoc. cbn [List.filter].
    destruct (same_amount t x); reflexivity.
Qed.

Lemma ordered_by_snoc {A : Type} (lt : A -> A -> bool) (l : list A) (x : A) :
  ordered_by lt l -> Forall (fun y => lt x y = false) l -> ordered_by lt (l ++ [x]).
Proof.
  induction l as [|y r IH]; intros Hord Hx.
  - split; [constructor | exact I].
  - destruct Hord as [Hy Hord]. apply Forall_cons in Hx as [Hxy Hx].
    cbn [app ordered_by]. split; [|exact (IH Hord Hx)].
    apply Forall_app. split; [exact Hy | constructor; [exact Hxy | constructor]].
Qed.

Lemma ordered_by_rev {A : Type} (lt : A -> A -> bool) (l : list A) :
  ordered_by lt l -> ordered_by (fun a b => lt b a) (rev l).
Proof.
  induction l as [|x r IH]; intros Hord; [exact I|].
  destruct Hord as [Hx Hord]. cbn [rev].
  apply ordered_by_snoc; [exact (IH Hord)|].
  apply Forall_rev. exact Hx.
Qed.

Lemma filter_rev {A : Type} (f : A -> bool) (l : list A) :
  List.filter f (rev l) = rev (List.filter f l).
Proof.
  induction l as [|x r IH]; [reflexivity|].
  cbn [rev List.filter]. rewrite List.filter_app, IH. cbn [List.filter].
  destruct (f x); [reflexivity | apply app_nil_r].
Qed.

(** X20: when every amount is a float other than nan, [sort_by_amount]
    returns a list in the order asked for: descending, no transaction is
    followed by one with a greater amount; ascending, none is followed by
    one with a smaller amount. *)
Theorem sort_by_amount_ordered (l : BlockchainLedger) (descending : bool) :
  Forall ordered_amount (all_transactions l) ->
  exists s,
    sort_by_amount l descending = Ok s
    /\ if descending then ordered_by (fun later earlier => amount_lt earlier later) s
       else ordered_by amount_lt s.
Proof.
  intros Hall. unfold sort_by_amount, py_sorted. destruct descending.
  - destruct (sort_by_amount_facts (rev (all_transactions l)) [])
      as (s & -> & Hord & _); [constructor | apply Forall_rev, Hall | exact I |].
    exists (rev s). split; [reflexivity|]. apply ordered_by_rev, Hord.
  - destruct (sort_by_amount_facts (all_transactions l) [])
      as (s & -> & Hord & _); [constructor | exact Hall | exact I |].
    exists s. split; [reflexivity | exact Hord].
Qed.

(** X21: when every amount is a float other than nan, [sort_by_amount] is
    stable in both directions: the transactions whose amount equals that of
    a given transaction come out in the order they have in
    [all_transactions]. *)
Theorem sort_by_amount_stable (l : BlockchainLedger) (descending : bool) :
  Forall ordered_amount (all_transactions l) ->
  exists s,
    sort_by_amount l descending = Ok s
    /\ forall t, ordered_amount t ->
         List.filter (same_amount t) s = List.filter (same_amount t) (all_transactions l).
Proof.
  intros Hall. unfold sort_by_amount, py_sorted. destruct descending.
  - destruct (sort_by_amount_facts (rev (all_transactions l)) [])
      as (s & -> & _ & Hst); [constructor | apply Forall_rev, Hall | exact I |].
    exists (rev s). split; [reflexivity|].
    intros t Ht. rewrite filter_rev, (Hst t Ht). cbn [List.filter app].
    rewrite filter_rev. apply rev_involutive.
  - destruct (sort_by_amount_facts (all_transactions l) [])
      as (s & -> & _ & Hst); [constructor | exact Hall | exact I |].
    exists s. split; [reflexivity|]. intros t Ht. exact (Hst t Ht).
Qed.

Lemma has_ordered_amount_spec (l : list Transaction) :
  forallb has_ordered_amount l = true -> Forall ordered_amount l.
Proof.
  intros H. apply Forall_forall. intros t Ht.
  apply list_elem_of_In in Ht.
  pose proof (proj1 (forallb_forall _ _) H t Ht) as Hb.
  unfold has_ordered_amount in Hb. unfold ordered_amount.
  destruct (amount t) as [| | |x|]; try discriminate Hb.
  exists x. split; [reflexivity|]. intros ->. discriminate Hb.
Qed.

Lemma sort_by_amount_ordered_witness :
  exists s,
    sort_by_amount Sample.built true = Ok s
    /\ ordered_by (fun later earlier => amount_lt earlier later) s.
Proof.
  apply (sort_by_amount_ordered Sample.built true).
  apply has_ordered_amount_spec. vm_compute. reflexivity.
Defined.

Lemma sort_by_amount_stable_witness :
  exists s,
    sort_by_amount Sample.built true = Ok s
    /\ forall t, ordered_amount t ->
         List.filter (same_amount t) s
         = List.filter (same_amount t) (all_transactions Sample.built).
Proof.
  apply (sort_by_amount_stable Sample.built true).
  apply has_ordered_amount_spec. vm_compute. reflexivity.
Defined.

(** *** Amounts that cannot be compared *)

Lemma py_lt_None_l (v : pyval) : py_lt PyNone v = Raise TypeError.
Proof. destruct v; reflexivity. Qed.

Lemma py_lt_None_r (v : pyval) : py_lt v PyNone = Raise TypeError.
Proof. destruct v; reflexivity. Qed.

Lemma py_lt_raises (a b : pyval) (e : exn) : py_lt a b = Raise e -> e = TypeError.
Proof.
  unfold py_lt. destruct (as_num a), (as_num b); try discriminate;
    try (intros H; injection H as <-; reflexivity).
  destruct a, b; try discriminate; intros H; injection H as <-; reflexivity.
Qed.

Lemma insert_by_raises {A : Type} (key : A -> pyval) (x : A) (l : list A) (e : exn) :
  insert_by key x l = Raise e -> e = TypeError.
Proof.
  induction l as [|y r IH]; [discriminate|].
  cbn [insert_by]. destruct (py_lt (key x) (key y)) as [c|e'] eqn:Hc.
  - cbn [bind]. destruct c; [discriminate|].
    destruct (insert_by key x r) as [r'|e'']; [discriminate|].
    cbn [bind]. intros H. injection H as <-. apply IH. reflexivity.
  - cbn [bind]. intros H. injection H as <-. exact (py_lt_raises _ _ _ Hc).
Qed.

Lemma sort_by_None {A : Type} (key : A -> pyval) (l done : list A) :
  done <> [] ->
  Exists (fun t => key t = PyNone) l ->
  sort_by key done l = Raise TypeError.
Proof.
  revert done. induction l as [|x r IH]; intros done Hd Hex;
    [apply Exists_nil in Hex; destruct Hex|].
  cbn [sort_by]. apply Exists_cons in Hex as [Hx|Hr].
  - destruct done as [|y d]; [contradiction|].
    cbn [insert_by]. rewrite Hx, py_lt_None_l. reflexivity.
  - destruct (insert_by key x done) as [done'|e] eqn:Hi.
    + cbn [bind]. apply IH; [|exact Hr].
      intros ->. apply insert_by_perm, Permutation_nil_l in Hi. discriminate Hi.
    + cbn [bind]. rewrite (insert_by_raises key x done e Hi). reflexivity.
Qed.

Lemma sort_by_None_two {A : Type} (key : A -> pyval) (l : list A) :
  (2 <= length l)%nat ->
  Exists (fun t => key t = PyNone) l ->
  sort_by key [] l = Raise TypeError.
Proof.
  destruct l as [|x [|y r]]; cbn [length]; try lia. intros _ Hex.
  cbn [sort_by insert_by bind].
  destruct (py_lt (key y) (key x)) as [c|e] eqn:Hc.
  - assert (Hnx : key x <> PyNone)
      by (intros H; rewrite H, py_lt_None_r in Hc; discriminate Hc).
    assert (Hny : key y <> PyNone)
      by (intros H; rewrite H, py_lt_None_l in Hc; discriminate Hc).
    apply Exists_cons in Hex as [H|Hex]; [contradiction|].
    apply Exists_cons in Hex as [H|Hex]; [contradiction|].
    cbn [bind]. destruct c; cbn [bind]; apply sort_by_None; (discriminate || exact Hex).
  - cbn [bind]. rewrite (py_lt_raises _ _ _ Hc). reflexivity.
Qed.

(** X22: when the ledger holds at least two transactions and the amount
    of one of them is [None], [sort_by_amount] raises [TypeError], in
    either direction. *)
Theorem sort_by_amount_None (l : BlockchainLedger) (descending : bool) :
  (2 <= length (all_transactions l))%nat ->
  Exists (fun t => amount t = PyNone) (all_transactions l) ->
  sort_by_amount l descending = Raise TypeError.
Proof.
  intros Hlen Hex. unfold sort_by_amount, py_sorted. destruct descending.
  - rewrite (sort_by_None_two amount (rev (all_transactions l))); [reflexivity| |].
    + rewrite length_rev. exact Hlen.
    + apply Exists_exists. apply Exists_exists in Hex as (t & Ht & Hn).
      exists t. split; [apply list_elem_of_In; rewrite <- in_rev; apply list_elem_of_In, Ht
                       | exact Hn].
  - exact (sort_by_None_two amount (all_transactions l) Hlen Hex).
Qed.

Lemma sort_by_amount_None_witness :
  sort_by_amount (tamper 1 0 (Set_amount PyNone) Sample.built) true = Raise TypeError.
Proof.
  apply sort_by_amount_None.
  - vm_compute. lia.
  - vm_compute. apply Exists_cons_hd. reflexivity.
Defined.

(** ** Block labels *)

Lemma take_chars_hex (cs : list ascii) (n : nat) :
  forallb is_hex_char cs = true -> take_chars n cs = take n cs.
Proof.
  revert n. induction cs as [|c cs IH]; intros n H; [destruct n; reflexivity|].
  cbn [forallb] in H. apply andb_true_iff in H as [Hc Hcs].
  cbn [take_chars].
  assert (Hcont : is_continuation c = false).
  { unfold is_hex_char in Hc. unfold is_continuation.
    destruct (Z.leb_spec 128 (Text.code c)); [|reflexivity].
    apply orb_true_iff in Hc as [Hc|Hc]; apply andb_true_iff in Hc as [_ Hc];
      apply Z.leb_le in Hc; lia. }
  rewrite Hcont. destruct n as [|n]; [reflexivity|].
  cbn [take]. rewrite (IH n Hcs). reflexivity.
Qed.

Lemma substring_take (s : string) (n : nat) :
  string_of_list_ascii (take n (list_ascii_of_string s)) = String.substring 0 n s.
Proof.
  revert n. induction s as [|c s IH]; intros n; [destruct n; reflexivity|].
  destruct n as [|n]; [reflexivity|]. cbn. rewrite IH. reflexivity.
Qed.

(** X23: in a ledger that [process_transactions] returns, the label of a
    block shows its position, the first ten hex digits of its hash, and as
    "Prev" the first ten hex digits of the hash of the block before it
    (the same ten that the label of that block shows as "Hash"); the label
    of the genesis block shows "0" as "Prev". *)
Theorem block_labels (rt : Runtime) (df : list Row) (block_size : Z) (l : BlockchainLedger) :
  process_transactions rt df block_size = Ok l ->
  (forall i b p,
      chain l !! S i = Some b -> chain l !! i = Some p ->
      Block_str b
      = "Block #" +:+ str_int (Z.of_nat (S i)) +:+ " | Hash: "
          +:+ String.substring 0 10 (hash b) +:+ "... | Prev: "
          +:+ String.substring 0 10 (hash p) +:+ "..."
      /\ String.length (String.substring 0 10 (hash b)) = 10%nat)
  /\ (forall g,
         chain l !! 0%nat = Some g ->
         Block_str g
         = "Block #0 | Hash: " +:+ String.substring 0 10 (hash g) +:+ "... | Prev: 0...").
Proof.
  intros Hl.
  assert (Hpre : forall i b, chain l !! i = Some b ->
             str_prefix 10 (hash b) = String.substring 0 10 (hash b)
             /\ String.length (String.substring 0 10 (hash b)) = 10%nat).
  { intros i b Hb.
    destruct (proj2 (stored_hash_facts rt) df block_size l i b Hl Hb) as [Hlen Hhex].
    assert (H : str_prefix 10 (hash b) = String.substring 0 10 (hash b)).
    { unfold str_prefix. rewrite (take_chars_hex _ 10 Hhex). apply substring_take. }
    split; [exact H|].
    rewrite <- substring_take, length_string_of_list_ascii, length_take.
    rewrite <- (length_string_of_list_ascii (list_ascii_of_string (hash b))),
            string_of_list_ascii_of_string, Hlen. reflexivity. }
  split.
  - intros i b p Hb Hp.
    destruct (built_block_facts rt df block_size l (S i) b Hl Hb) as (Hi & _ & _ & Hprev).
    destruct (Hpre (S i) b Hb) as [Hb1 Hb2]. destruct (Hpre i p Hp) as [Hp1 _].
    split; [|exact Hb2].
    unfold Block_str. rewrite Hi, Hb1, (Hprev p); [rewrite Hp1; reflexivity | | lia].
    replace (S i - 1)%nat with i by lia. exact Hp.
  - intros g Hg.
    destruct (built_block_facts rt df block_size l 0 g Hl Hg) as (Hi & _ & _ & _).
    destruct (Hpre 0%nat g Hg) as [Hg1 _].
    destruct (process_transactions_at_inv rt 0 (fun l _ => genesis_first l) df block_size)
      as (l1 & t & Hl1 & [(g' & Hg' & _ & Hp0) _]).
    + split; [eexists; split; [reflexivity | split; reflexivity]|].
      intros i b Hi'. destruct i; discriminate.
    + intros l0 txns t0 l' t' Hgf Htx Hadd.
      exact (genesis_first_add_block rt l0 l' txns t0 t' Hgf Htx Hadd).
    + unfold process_transactions in Hl. rewrite Hl in Hl1. injection Hl1 as <-.
      rewrite Hg in Hg'. injection Hg' as <-.
      unfold Block_str. rewrite Hi, Hg1, Hp0. reflexivity.
Qed.

Lemma block_labels_witness :
  map Block_str (chain Sample.built)
  = ["Block #0 | Hash: baa8ea9963... | Prev: 0...";
     "Block #1 | Hash: e903fc00ab... | Prev: baa8ea9963...";
     "Block #2 | Hash: 2e03b9e1c4... | Prev: e903fc00ab...";
     "Block #3 | Hash: 31a9150da9... | Prev: 2e03b9e1c4..."]
  /\ Block_str (Sample.nth_block 2)
     = "Block #" +:+ str_int 2 +:+ " | Hash: "
         +:+ String.substring 0 10 (hash (Sample.nth_block 2)) +:+ "... | Prev: "
         +:+ String.substring 0 10 (hash (Sample.nth_block 1)) +:+ "...".
Proof.
  split; [vm_compute; reflexivity|].
  apply (proj1 (block_labels Demo.rt Sample.df 2 Sample.built
                  ltac:(vm_compute; reflexivity)) 1%nat);
    vm_compute; reflexivity.
Defined.

(** ** What the ledger keeps of its input *)

Lemma valid_txns_filter (rt : Runtime) (df : list Row) :
  valid_txns rt (List.filter (fun row => negb (malformed rt row)) df) = valid_txns rt df.
Proof.
  unfold valid_txns. induction df as [|row df IH]; [reflexivity|].
  cbn [List.filter].
  change (omap (row_txn rt) (row :: df))
    with (match row_txn rt row with
          | Some y => y :: omap (row_txn rt) df
          | None => omap (row_txn rt) df
          end).
  unfold malformed at 1. unfold row_txn at 2.
  destruct (Transaction_of_row rt row) as [t|e] eqn:Ht; cbn [negb]; [|exact IH].
  change (omap (row_txn rt) (row :: List.filter (fun r => negb (malformed rt r)) df))
    with (match row_txn rt row with
          | Some y => y :: omap (row_txn rt) (List.filter (fun r => negb (malformed rt r)) df)
          | None => omap (row_txn rt) (List.filter (fun r => negb (malformed rt r)) df)
          end).
  unfold row_txn at 1. rewrite Ht, IH. reflexivity.
Qed.

(** X24: malformed rows leave no trace: the ledger built from a frame is
    the ledger built from its valid rows alone, block for block, hashes
    and timestamps included. *)
Theorem malformed_rows_leave_no_trace (rt : Runtime) (df : list Row) (block_size : Z) :
  process_transactions rt df block_size
  = process_transactions rt (List.filter (fun row => negb (malformed rt row)) df) block_size.
Proof.
  unfold process_transactions.
  rewrite !process_transactions_at_fold, valid_txns_filter. reflexivity.
Qed.

Lemma links_ok_insert_same (rest : list Block) (p b b' : Block) (k : nat) :
  rest !! k = Some b ->
  hash b' = hash b -> previous_hash b' = previous_hash b ->
  calculate_hash b' = calculate_hash b ->
  links_ok p (<[k := b']> rest) = links_ok p rest.
Proof.
  revert p k. induction rest as [|c rest IH]; intros p k Hk Hh Hp Hc; [discriminate|].
  destruct k as [|k].
  - cbn in Hk. injection Hk as ->.
    change (<[0%nat := b']> (b :: rest)) with (b' :: rest).
    cbn [links_ok]. rewrite Hh, Hp, Hc, (links_ok_head b b' rest Hh). reflexivity.
  - change (<[S k := b']> (c :: rest)) with (c :: <[k := b']> rest).
    cbn [links_ok]. rewrite (IH c k Hk Hh Hp Hc). reflexivity.
Qed.

(** X25: verification sees a transaction only through its text: an
    assignment that leaves [str(txn)] as it was (giving the sender 1001 as
    the text "1001", say) is not noticed, in any block of any ledger. *)
Theorem same_text_update_unnoticed (l : BlockchainLedger) (i j : nat) (upd : field_update)
    (b : Block) (t : Transaction) :
  chain l !! i = Some b ->
  transactions b !! j = Some t ->
  Transaction_str (set_field upd t) = Transaction_str t ->
  is_chain_valid (tamper i j upd l) = is_chain_valid l.
Proof.
  intros Hb Ht Hstr.
  unfold tamper. rewrite Hb, Ht.
  set (b' := set_transactions (<[j := set_field upd t]> (transactions b)) b).
  assert (Hmap : map Transaction_str (<[j := set_field upd t]> (transactions b))
                 = map Transaction_str (transactions b)).
  { change (Transaction_str <$> <[j := set_field upd t]> (transactions b)
            = Transaction_str <$> transactions b).
    rewrite list_fmap_insert, Hstr.
    apply list_insert_id. rewrite list_lookup_fmap, Ht. reflexivity. }
  assert (Htext : calculate_hash b' = calculate_hash b).
  { unfold calculate_hash, b'. cbn [index timestamp transactions previous_hash set_transactions].
    unfold block_string. rewrite Hmap. reflexivity. }
  destruct l as [[|g rest] all]; [discriminate|]. cbn [chain all_transactions] in *.
  destruct i as [|k].
  - cbn in Hb. injection Hb as ->.
    change (<[0%nat := b']> (b :: rest)) with (b' :: rest).
    rewrite !is_chain_valid_cons. apply links_ok_head. reflexivity.
  - change (<[S k := b']> (g :: rest)) with (g :: <[k := b']> rest).
    rewrite !is_chain_valid_cons.
    apply (links_ok_insert_same rest g b b' k Hb); [reflexivity | reflexivity | exact Htext].
Qed.

Lemma same_text_update_unnoticed_witness :
  is_chain_valid (tamper 1 0 (Set_sender (PyStr "1001")) Sample.built) = true
  /\ all_transactions (tamper 1 0 (Set_sender (PyStr "1001")) Sample.built)
     <> all_transactions Sample.built.
Proof.
  split.
  - rewrite (same_text_update_unnoticed Sample.built 1 0 (Set_sender (PyStr "1001"))
               (Sample.nth_block 1)
               (Transaction_init (PyInt 1001) (PyInt 2002)
                  (PyFloat (float_of_decimal false 755 (-1))) (PyStr "EUR") (PyInt 1)
                  (PyStr "Cash")));
      vm_compute; reflexivity.
  - intros H. vm_compute in H. discriminate H.
Defined.

(** ** Further witnesses *)

(** X26: when the genesis block recomputes to its stored hash,
    [is_chain_valid] returns what the check worded with recomputed digests
    returns: the two differ only on chains whose genesis block has been
    changed. *)
Theorem verification_agrees_when_genesis_intact (g : Block) (rest : list Block)
    (txns : list Transaction) :
  hash g = calculate_hash g ->
  is_chain_valid {| chain := g :: rest; all_transactions := txns |}
  = verify_spec (g :: rest).
Proof.
  exact (verify_spec_agrees g rest txns).
Qed.

Lemma verification_agrees_when_genesis_intact_witness :
  is_chain_valid {| chain := Sample.nth_block 0 :: drop 1 (chain Sample.built);
                    all_transactions := all_transactions Sample.built |}
  = verify_spec (Sample.nth_block 0 :: drop 1 (chain Sample.built)).
Proof.
  apply verification_agrees_when_genesis_intact. vm_compute. reflexivity.
Defined.

(** * The digest and the text of amounts *)

(** ** The characters of [str] of a float *)

Lemma string_all_app (ok : ascii -> bool) (a b : string) :
  string_all ok (a +:+ b) = string_all ok a && string_all ok b.
Proof.
  induction a as [|c a IH]; [reflexivity|].
  change (ok c && string_all ok (a +:+ b) = ok c && string_all ok a && string_all ok b).
  rewrite IH, andb_assoc. reflexivity.
Qed.

Lemma string_all_substring (ok : ascii -> bool) (s : string) (n m : nat) :
  string_all ok s = true -> string_all ok (String.substring n m s) = true.
Proof.
  revert n m. induction s as [|c s IH]; intros n m Hs.
  - destruct n, m; reflexivity.
  - cbn [string_all] in Hs. apply andb_true_iff in Hs as [Hc Hs].
    destruct n as [|n]; destruct m as [|m]; cbn [String.substring string_all].
    + reflexivity.
    + rewrite Hc. exact (IH 0%nat m Hs).
    + exact (IH n 0%nat Hs).
    + exact (IH n (S m) Hs).
Qed.

Lemma string_all_weaken (ok ok' : ascii -> bool) (s : string) :
  (forall c, ok c = true -> ok' c = true) ->
  string_all ok s = true -> string_all ok' s = true.
Proof.
  intros Hw. induction s as [|c s IH]; [reflexivity|].
  cbn [string_all]. rewrite !andb_true_iff. intros [Hc Hs]. split; auto.
Qed.

Lemma digit_is_decimal_char (c : ascii) :
  Text.is_digit c = true -> is_decimal_char c = true.
Proof. unfold is_decimal_char. intros ->. reflexivity. Qed.

Lemma string_of_uint_digits (d : Decimal.uint) :
  string_all Text.is_digit (NilEmpty.string_of_uint d) = true.
Proof. induction d; cbn [NilEmpty.string_of_uint string_all]; try rewrite IHd; reflexivity. Qed.

Lemma str_int_digits (z : Z) : 0 <= z -> string_all Text.is_digit (str_int z) = true.
Proof.
  intros Hz. unfold str_int. destruct z as [|p|p]; [reflexivity| |lia].
  cbn [Z.to_int NilZero.string_of_int]. unfold NilZero.string_of_uint.
  destruct (Pos.to_uint p); try apply string_of_uint_digits. reflexivity.
Qed.

Lemma str_int_decimal_chars (z : Z) : string_all is_decimal_char (str_int z) = true.
Proof.
  destruct z as [|p|p].
  - reflexivity.
  - apply (string_all_weaken Text.is_digit); [exact digit_is_decimal_char|].
    apply str_int_digits. lia.
  - unfold str_int. cbn [Z.to_int NilZero.string_of_int]. cbn [string_all].
    change (is_decimal_char "-") with true. cbn [andb].
    apply (string_all_weaken Text.is_digit); [exact digit_is_decimal_char|].
    unfold NilZero.string_of_uint.
    destruct (Pos.to_uint p); try apply string_of_uint_digits. reflexivity.
Qed.

Lemma zeros_decimal_chars (n : Z) : string_all is_decimal_char (Repr.zeros n) = true.
Proof.
  unfold Repr.zeros. induction (Z.to_nat n) as [|k IH]; [reflexivity|].
  cbn [repeat string_of_list_ascii string_all]. rewrite IH. reflexivity.
Qed.

Lemma exponent_decimal_chars (x : Z) : string_all is_decimal_char (Repr.exponent x) = true.
Proof.
  unfold Repr.exponent. rewrite string_all_app.
  destruct (x <? 0); destruct (Z.abs x <? 10);
    rewrite ?string_all_app, str_int_decimal_chars; reflexivity.
Qed.

Lemma format_decimal_chars (d k : Z) : string_all is_decimal_char (Repr.format d k) = true.
Proof.
  unfold Repr.format. cbv zeta.
  pose proof (str_int_decimal_chars d) as Hd.
  repeat match goal with
         | |- context [if ?c then _ else _] => destruct c
         end;
    rewrite ?string_all_app, ?zeros_decimal_chars, ?exponent_decimal_chars, ?Hd,
      ?(string_all_substring _ _ _ _ Hd); reflexivity.
Qed.

Lemma float_repr_chars (x : float) :
  if is_finite x then string_all is_decimal_char (float_repr x) = true
  else float_repr x = "inf" \/ float_repr x = "-inf" \/ float_repr x = "nan".
Proof.
  destruct x as [s|s| |s m e]; cbn [is_finite].
  - destruct s; reflexivity.
  - destruct s; [right; left | left]; reflexivity.
  - right. right. reflexivity.
  - unfold float_repr. destruct (Repr.digits m e) as [d k].
    rewrite string_all_app, format_decimal_chars. destruct s; reflexivity.
Qed.

(** ** The digest of a block *)

Lemma elem_of_block_transactions (c : list Block) (i : nat) (b : Block) (t : Transaction) :
  c !! i = Some b -> t ∈ transactions b -> t ∈ concat (map transactions c).
Proof.
  revert i. induction c as [|g c IH]; intros i Hb Ht; [discriminate|].
  cbn [map concat]. apply elem_of_app. destruct i as [|k].
  - cbn in Hb. injection Hb as ->. left. exact Ht.
  - right. exact (IH k Hb Ht).
Qed.

(** C5 (as amended): the digest of a block is the SHA-256 hash of the
    block's index as text, its timestamp as text, the canonical strings of
    its transactions in order and the previous block's digest, joined in
    this order; the canonical string of a transaction has the fields in the
    order sender, receiver, amount, currency, payment type, status marker.
    The amount appears as [str] of the stored value: for a float this is
    neither a fixed number of decimals nor the exact decimal value; it is
    written with the characters 0-9 . - + e alone when the float is finite
    and is inf, -inf or nan otherwise, so no separator depends on a locale.
    The digest depends on nothing but the four hashed fields, and in a
    ledger returned by [process_transactions] every amount is a float and
    every block recomputes to the digest it stores. *)
Theorem digest_formula (rt : Runtime) :
  (forall b, calculate_hash b = digest_spec b)
  /\ (forall t, Transaction_str t = canonical_form t)
  /\ (forall x,
         amount_text x = float_repr x
         /\ if is_finite x then string_all is_decimal_char (amount_text x) = true
            else amount_text x = "inf" \/ amount_text x = "-inf" \/ amount_text x = "nan")
  /\ ~ amount_fixed_precision
  /\ ~ amount_exact_decimal
  /\ (forall b b',
         index b = index b' -> timestamp b = timestamp b' ->
         transactions b = transactions b' -> previous_hash b = previous_hash b' ->
         calculate_hash b = calculate_hash b')
  /\ (forall df block_size l i b,
         process_transactions rt df block_size = Ok l ->
         chain l !! i = Some b ->
         calculate_hash b = hash b
         /\ Forall (fun t => exists x, amount t = PyFloat x
                                       /\ py_str (amount t) = amount_text x)
                   (transactions b)).
Proof.
  split.
  { intros b. unfold calculate_hash, digest_spec, block_string. f_equal.
    cbn [app fold_right]. rewrite join_fold.
    rewrite (map_ext _ _ Transaction_str_canonical). reflexivity. }
  split; [exact Transaction_str_canonical|].
  split.
  { intros x. split; [reflexivity|]. exact (float_repr_chars x). }
  split.
  { intros [p Hfix].
    pose proof (Hfix Demo.hundred eq_refl) as H1.
    pose proof (Hfix Demo.eighth eq_refl) as H3.
    vm_compute in H1, H3. congruence. }
  split.
  { intros Hexact. pose proof (Hexact Demo.tenth eq_refl) as H.
    vm_compute in H. discriminate H. }
  split.
  { intros b b' Hi Ht Htx Hp. unfold calculate_hash. rewrite Hi, Ht, Htx, Hp. reflexivity. }
  intros df block_size l i b Hl Hb.
  destruct (built_block_facts rt df block_size l i b Hl Hb) as (_ & _ & Hh & _).
  split; [symmetry; exact Hh|].
  destruct (process_transactions_at_ok rt 0 df block_size) as (l' & Hl' & [_ Hcat] & Hall).
  unfold process_transactions in Hl. rewrite Hl in Hl'. injection Hl' as <-.
  apply Forall_forall. intros t Ht.
  pose proof (elem_of_block_transactions (chain l) i b t Hb Ht) as Hin.
  rewrite <- Hcat, Hall in Hin. unfold valid_txns in Hin.
  apply list_elem_of_omap in Hin as (row & _ & Hrow).
  unfold row_txn in Hrow.
  destruct (Transaction_of_row rt row) as [t'|e] eqn:Hok; [|discriminate].
  injection Hrow as ->.
  destruct (Transaction_of_row_amount rt row t Hok) as [x Hx].
  exists x. split; [exact Hx|]. rewrite Hx. reflexivity.
Qed.

Lemma digest_formula_witness :
  calculate_hash (Sample.nth_block 2) = hash (Sample.nth_block 2)
  /\ Forall (fun t => exists x, amount t = PyFloat x /\ py_str (amount t) = amount_text x)
            (transactions (Sample.nth_block 2))
  /\ calculate_hash Demo.forged_genesis
     = calculate_hash (set_transactions [Demo.txn Demo.hundred] Demo.forged_genesis).
Proof.
  destruct (digest_formula Demo.rt) as (_ & _ & _ & _ & _ & Hdet & Hbuilt).
  destruct (Hbuilt Sample.df 2 Sample.built 2%nat (Sample.nth_block 2)) as [Hh Ha];
    [vm_compute; reflexivity | vm_compute; reflexivity |].
  split; [exact Hh|]. split; [exact Ha|].
  apply Hdet; vm_compute; reflexivity.
Defined.
